(** * Hangman evaluation: the game engine, the guess tool, the initialiser
      and the scorer of [src/hangman_eval/hangman.py], embedded in Rocq.

    Python objects are mutated in place and exceptions do not roll a
    mutation back, so every stateful function is a computation in a small
    state-and-exception monad: it maps the state before the call to the
    state after it together with either the returned value or the raised
    exception. *)

From Stdlib Require Import ZArith Lia Ascii.
From stdpp Require Import base strings list gmap sorting pretty.

(** ** Exceptions and the state-and-exception monad *)

Inductive exn : Type :=
| ValueError (msg : string)
| RuntimeError (msg : string).

Inductive res (A : Type) : Type :=
| Return (a : A)
| Raise (e : exn).
Arguments Return {A} a.
Arguments Raise {A} e.

Definition M (S A : Type) : Type := S → S * res A.

#[global] Instance M_ret {S} : MRet (M S) := λ A a s, (s, Return a).
#[global] Instance M_bind {S} : MBind (M S) := λ A B f m s,
  match m s with
  | (s', Return a) => f a s'
  | (s', Raise e) => (s', Raise e)
  end.

Definition get {S} : M S S := λ s, (s, Return s).
Definition modify {S} (f : S → S) : M S unit := λ s, (f s, Return tt).
Definition raise {S A} (e : exn) : M S A := λ s, (s, Raise e).
Definition when {S} (b : bool) (m : M S unit) : M S unit :=
  if b then m else mret tt.

(** ** What the module imports

    [str.lower], [str.isalpha] and [repr] are Python built-ins and
    [DEFAULT_LANGUAGE] comes from [hangman_eval.datasets]; none of them is
    defined in this file of the repository, so the development is
    parametric in them.  A [string] is a sequence of code points, each of
    which fits in one [ascii]. *)

Class Externals : Type := {
  lower : string → string;
  isalpha : string → bool;
  repr : string → string;
  DEFAULT_LANGUAGE_value : string;
}.

Definition DEFAULT_MAX_GUESSES : Z := 10.

(** ** Python string primitives written out *)

(** [for letter in s]: the characters of [s], each as a string of length 1. *)
Fixpoint chars (s : string) : list string :=
  match s with
  | EmptyString => []
  | String c s' => String c EmptyString :: chars s'
  end.

Fixpoint is_prefix (p s : string) : bool :=
  match p, s with
  | EmptyString, _ => true
  | String _ _, EmptyString => false
  | String a p', String b s' => bool_decide (a = b) && is_prefix p' s'
  end.

(** [x in s] on two strings: [x] occurs in [s] as a contiguous substring. *)
Fixpoint str_in (x s : string) : bool :=
  is_prefix x s ||
  match s with
  | EmptyString => false
  | String _ s' => str_in x s'
  end.

(** [x in l] on a list of strings. *)
Definition list_in (x : string) (l : list string) : bool := bool_decide (x ∈ l).

(** [str(b)] for a bool, [str(n)] for an int, [str(l)] for a list of str. *)
Definition str_bool (b : bool) : string := if b then "True" else "False".
Definition str_int (n : Z) : string := pretty n.

Section Program.
Context `{Externals}.

Definition str_list (l : list string) : string :=
  "[" +:+ String.concat ", " (repr <$> l) +:+ "]".

(** ** GameState *)

Record GameState : Type := mkGameState {
  word : string;
  guessed_letters : list string;
  remaining_guesses : Z;
  game_over : bool;
  won : bool;
}.

Definition start (word : string) (max_guesses : Z) : GameState :=
  {| word := lower word;
     guessed_letters := [];
     remaining_guesses := max_guesses;
     game_over := false;
     won := false |}.

Definition current_state (self : GameState) : string :=
  String.concat " "
    ((λ letter, if list_in letter (guessed_letters self) then letter else "_")
       <$> chars (word self)).

Definition incorrect_guesses (self : GameState) : list string :=
  merge_sort String.le
    (elements (list_to_set (guessed_letters self) ∖ list_to_set (chars (word self))
               : gset string)).

(** The in-place updates of [guess]. *)
Definition append_guessed (letter : string) (self : GameState) : GameState :=
  {| word := word self;
     guessed_letters := guessed_letters self ++ [letter];
     remaining_guesses := remaining_guesses self;
     game_over := game_over self;
     won := won self |}.

Definition decrement_remaining (self : GameState) : GameState :=
  {| word := word self;
     guessed_letters := guessed_letters self;
     remaining_guesses := remaining_guesses self - 1;
     game_over := game_over self;
     won := won self |}.

Definition set_game_over (self : GameState) : GameState :=
  {| word := word self;
     guessed_letters := guessed_letters self;
     remaining_guesses := remaining_guesses self;
     game_over := true;
     won := won self |}.

Definition set_won (self : GameState) : GameState :=
  {| word := word self;
     guessed_letters := guessed_letters self;
     remaining_guesses := remaining_guesses self;
     game_over := game_over self;
     won := true |}.

(** [all(letter in self.guessed_letters for letter in self.word)] *)
Definition all_guessed (self : GameState) : bool :=
  forallb (λ letter, list_in letter (guessed_letters self)) (chars (word self)).

(** [return self]: the returned reference is the object itself. *)
Definition return_self : M GameState GameState := get.

Definition guess (letter : string) : M GameState GameState :=
  self ← get;
  if game_over self then return_self else
  let letter := lower letter in
  if negb (String.length letter =? 1)%nat || negb (isalpha letter) then
    raise (ValueError "Guess must be a single letter")
  else
  if list_in letter (guessed_letters self) then return_self else
  modify (append_guessed letter);;
  (self ← get;
   when (negb (str_in letter (word self))) (modify decrement_remaining));;
  (self ← get;
   when (all_guessed self) (modify set_game_over;; modify set_won));;
  (self ← get;
   when (remaining_guesses self <=? 0)%Z (modify set_game_over));;
  return_self.

End Program.

(** ** Episode state: sample metadata, the store, the prompt, the output

    The dictionaries of the source are read only at literal keys, each
    holding the type the task constructor [hangman] puts there, so each
    dictionary is a record with one optional field per key: [None] is a
    missing key, and [d.get(k, v)] is [default v (field d)]. *)

Record SampleMetadata : Type := mkSampleMetadata {
  md_word : option string;
  md_max_guesses : option Z;
  md_language : option string;
  md_difficulty : option Z;
  md_allow_word_guesses : option bool;
}.

Definition empty_sample_metadata : SampleMetadata :=
  mkSampleMetadata None None None None None.

(** The dictionary stored under ["hangman:metadata"]. *)
Record GameMetadata : Type := mkGameMetadata {
  gm_language : option string;
  gm_difficulty : option Z;
  gm_allow_word_guesses : option bool;
}.

Definition empty_game_metadata : GameMetadata := mkGameMetadata None None None.

(** The store, at the two keys the program uses. *)
Record Store : Type := mkStore {
  hangman_game_state : option GameState;
  hangman_metadata : option GameMetadata;
}.

Definition empty_store : Store := mkStore None None.

Definition store_set_game_state (g : GameState) (st : Store) : Store :=
  {| hangman_game_state := Some g; hangman_metadata := hangman_metadata st |}.

Definition store_set_metadata (m : GameMetadata) (st : Store) : Store :=
  {| hangman_game_state := hangman_game_state st; hangman_metadata := Some m |}.

Record TaskState : Type := mkTaskState {
  metadata : option SampleMetadata;
  store : Store;
  user_prompt_text : string;
  output_completion : string;
}.

Definition task_set_store (f : Store → Store) (state : TaskState) : TaskState :=
  {| metadata := metadata state;
     store := f (store state);
     user_prompt_text := user_prompt_text state;
     output_completion := output_completion state |}.

Definition task_set_prompt (text : string) (state : TaskState) : TaskState :=
  {| metadata := metadata state;
     store := store state;
     user_prompt_text := text;
     output_completion := output_completion state |}.

(** ** The guess tool *)

(** The dictionary returned to the agent. *)
Record Response : Type := mkResponse {
  resp_current_state : string;
  resp_remaining_guesses : Z;
  resp_incorrect_guesses : list string;
  resp_game_over : bool;
  resp_won : bool;
  resp_language : string;
}.

(** [store().get(key, default)] of the evaluation framework: when the key is
    missing and the default is not [None], the default is first written
    under the key, and then the value under the key is returned.  The game
    state is read with the default [None] (no write), the metadata with the
    default [{}] (a missing key is filled with the empty dictionary). *)
Definition store_get_game_state : M Store (option GameState) :=
  λ st, (st, Return (hangman_game_state st)).

Definition store_get_metadata : M Store GameMetadata :=
  λ st,
    match hangman_metadata st with
    | Some metadata => (st, Return metadata)
    | None =>
        (store_set_metadata empty_game_metadata st, Return empty_game_metadata)
    end.

(** A method call on the object held in the store: the object is updated
    in place, whether the call returns or raises. *)
Definition on_game_state {A} (game_state : GameState) (m : M GameState A) : M Store A :=
  λ st, let '(g', r) := m game_state in (store_set_game_state g' st, r).

Section Tool.
Context `{Externals}.

Definition response (game_state : GameState) (metadata : GameMetadata) : Response :=
  {| resp_current_state := current_state game_state;
     resp_remaining_guesses := remaining_guesses game_state;
     resp_incorrect_guesses := incorrect_guesses game_state;
     resp_game_over := game_over game_state;
     resp_won := won game_state;
     resp_language := default DEFAULT_LANGUAGE_value (gm_language metadata) |}.

Definition hangman_guess (letter : string) : M Store Response :=
  game_state ← store_get_game_state;
  metadata ← store_get_metadata;
  match game_state with
  | None =>
      raise (RuntimeError
        "No game in progress. The game must be started by the evaluation setup.")
  | Some game_state =>
      game_state ←
        (if negb (game_over game_state)
         then on_game_state game_state (guess letter)
         else mret game_state);
      mret (response game_state metadata)
  end.

(** ** The initialiser *)

Definition newline : string := String (ascii_of_nat 10) EmptyString.

Definition prompt_text (language : string) (max_guesses : Z) (word : string) : string :=
  "Let's play hangman in " +:+ language +:+ "! You have "
    +:+ str_int max_guesses +:+ " guesses." +:+ newline
    +:+ "The word is " +:+ String.concat " " (replicate (String.length word) "_")
    +:+ "." +:+ newline.

Definition game_initialiser : M TaskState TaskState :=
  state ← get;
  let metadata := default empty_sample_metadata (metadata state) in
  match md_word metadata with
  | None | Some EmptyString => raise (RuntimeError "No word provided in metadata")
  | Some word =>
      let max_guesses := default DEFAULT_MAX_GUESSES (md_max_guesses metadata) in
      let language := default DEFAULT_LANGUAGE_value (md_language metadata) in
      let difficulty := default 3%Z (md_difficulty metadata) in
      let allow_word_guesses := default false (md_allow_word_guesses metadata) in
      let hangman_game := start word max_guesses in
      modify (task_set_store (store_set_game_state hangman_game));;
      modify (task_set_store (store_set_metadata
        {| gm_language := Some language;
           gm_difficulty := Some difficulty;
           gm_allow_word_guesses := Some allow_word_guesses |}));;
      modify (task_set_prompt (prompt_text language max_guesses word));;
      get
  end.

(** ** The scorer *)

Inductive Value : Type := CORRECT | INCORRECT.

Record Score : Type := mkScore {
  value : Value;
  answer : string;
  explanation : string;
}.

Definition early_guess_explanation
    (game_state : GameState) (language : string) (difficulty : Z)
    (guessed_word : string) : string :=
  "Early guess. Word: " +:+ word game_state +:+ ". Language: " +:+ language +:+ ". "
  +:+ "Difficulty: " +:+ str_int difficulty +:+ "/5. "
  +:+ "Guessed word: " +:+ guessed_word +:+ ". "
  +:+ "Guessed letters: " +:+ str_list (guessed_letters game_state) +:+ ". "
  +:+ "Final word state: " +:+ current_state game_state +:+ ". "
  +:+ "Remaining guesses: " +:+ str_int (remaining_guesses game_state) +:+ ". ".

Definition game_ended_explanation
    (game_state : GameState) (language : string) (difficulty : Z) : string :=
  "Game ended. Word: " +:+ word game_state +:+ ". Language: " +:+ language +:+ ". "
  +:+ "Difficulty: " +:+ str_int difficulty +:+ "/5."
  +:+ "Won: " +:+ str_bool (won game_state) +:+ ". "
  +:+ "Guessed letters: " +:+ str_list (guessed_letters game_state) +:+ ". "
  +:+ "Final word state: " +:+ current_state game_state +:+ ". "
  +:+ "Remaining guesses: " +:+ str_int (remaining_guesses game_state) +:+ ". ".

(** The scorer's result is its [Score]; it changes no game state, and the
    store it leaves behind is not part of the result. *)
Definition game_scorer (state : TaskState) : res Score :=
  let game_state := hangman_game_state (store state) in
  let metadata := default empty_game_metadata (hangman_metadata (store state)) in
  let language := default DEFAULT_LANGUAGE_value (gm_language metadata) in
  let difficulty := default 3%Z (gm_difficulty metadata) in
  match game_state with
  | None => Raise (RuntimeError "No game state found in store")
  | Some game_state =>
      let allow_word_guesses := default false (gm_allow_word_guesses metadata) in
      (* [if allow_word_guesses: if not game_state.game_over: return ...];
         both other cases fall through to the code below *)
      if allow_word_guesses && negb (game_over game_state) then
        let guessed_word := output_completion state in
        Return
          {| value := if bool_decide (guessed_word = word game_state)
                      then CORRECT else INCORRECT;
             answer := guessed_word;
             explanation :=
               early_guess_explanation game_state language difficulty guessed_word |}
      else if negb (game_over game_state) then
        Return
          {| value := INCORRECT;
             answer := current_state game_state;
             explanation := "The game did not complete." |}
      else
        Return
          {| value := if won game_state then CORRECT else INCORRECT;
             answer := current_state game_state;
             explanation := game_ended_explanation game_state language difficulty |}
  end.

End Tool.

(** ** An instance of the imports on ASCII text

    On strings of ASCII letters [ascii_lower] and [ascii_isalpha] are
    Python's [str.lower] and [str.isalpha]; [ascii_repr] is [repr] on
    printable ASCII text without quotes or backslashes; the docstring of
    [hangman] gives ["english"] as the default language. *)

Definition ascii_lower_char (c : ascii) : ascii :=
  let n := nat_of_ascii c in
  if (65 <=? n)%nat && (n <=? 90)%nat then ascii_of_nat (n + 32) else c.

Fixpoint ascii_lower (s : string) : string :=
  match s with
  | EmptyString => EmptyString
  | String c s' => String (ascii_lower_char c) (ascii_lower s')
  end.

Definition ascii_isalpha_char (c : ascii) : bool :=
  let n := nat_of_ascii c in
  ((65 <=? n)%nat && (n <=? 90)%nat) || ((97 <=? n)%nat && (n <=? 122)%nat).

Fixpoint ascii_all_alpha (s : string) : bool :=
  match s with
  | EmptyString => true
  | String c s' => ascii_isalpha_char c && ascii_all_alpha s'
  end.

Definition ascii_isalpha (s : string) : bool :=
  negb (bool_decide (s = "")) && ascii_all_alpha s.

Definition ascii_repr (s : string) : string := "'" +:+ s +:+ "'".

#[global] Instance ascii_externals : Externals := {|
  lower := ascii_lower;
  isalpha := ascii_isalpha;
  repr := ascii_repr;
  DEFAULT_LANGUAGE_value := "english";
|}.

(** ** Vocabulary of the properties *)

(** [includes x s]: the text [s] contains [x]. *)
Definition includes (x s : string) : Prop := ∃ pre post, s = pre +:+ x +:+ post.

Section Vocabulary.
Context `{Externals}.

(** Running a sequence of tool-free guesses: the agent loop goes on after a
    rejected guess, with the state as the failed call left it. *)
Definition guesses (letters : list string) (self : GameState) : GameState :=
  foldl (λ s letter, (guess letter s).1) self letters.

(** A guess is well formed when its lower-case form is exactly one
    alphabetic character. *)
Definition valid_guess (letter : string) : Prop :=
  String.length (lower letter) = 1%nat ∧ isalpha (lower letter) = true.

Definition rejected (letter : string) : bool :=
  negb (String.length (lower letter) =? 1)%nat || negb (isalpha (lower letter)).

(** The state a fresh, well-formed guess of the (lower-case) letter leaves:
    the four updates of [guess] in sequence. *)
Definition apply_letter (letter : string) (self : GameState) : GameState :=
  let s1 := append_guessed letter self in
  let s2 := if negb (str_in letter (word s1)) then decrement_remaining s1 else s1 in
  let s3 := if all_guessed s2 then set_won (set_game_over s2) else s2 in
  if (remaining_guesses s3 <=? 0)%Z then set_game_over s3 else s3.

(** The game states of an episode: the one [start] builds, and those
    [guess] then leaves, whether it returns or raises. *)
Inductive reachable : GameState → Prop :=
| reachable_start (word : string) (max_guesses : Z) :
    reachable (start word max_guesses)
| reachable_guess (letter : string) (self : GameState) :
    reachable self → reachable (guess letter self).1.

(** While a game is live and a letter has been guessed, some letter of the
    word is still hidden. *)
Definition live_incomplete (s : GameState) : Prop :=
  game_over s = false → guessed_letters s ≠ [] → all_guessed s = false.

(** A live game, a well-formed letter not guessed before, and not a letter
    of the word: the one case in which a guess costs a life. *)
Definition wrong_new_guess (self : GameState) (letter : string) : Prop :=
  game_over self = false ∧ valid_guess letter ∧
  (lower letter ∉ guessed_letters self) ∧ (lower letter ∉ chars (word self)).

#[global] Instance wrong_new_guess_dec self letter : Decision (wrong_new_guess self letter).
Proof. unfold wrong_new_guess, valid_guess. apply _. Defined.

(** One cell of the display. *)
Definition cell (self : GameState) (letter : string) : string :=
  if bool_decide (letter ∈ guessed_letters self) then letter else "_".

(** The word the episode metadata supplies, if any. *)
Definition supplied_word (state : TaskState) : option string :=
  metadata state ≫= md_word.

(** The six items the audit trail of a score is to contain. *)
Definition audit_trail (game_state : GameState) (language : string)
    (difficulty : Z) (text : string) : Prop :=
  includes (word game_state) text ∧
  includes language text ∧
  includes (str_int difficulty) text ∧
  includes (str_list (guessed_letters game_state)) text ∧
  includes (current_state game_state) text ∧
  includes (str_int (remaining_guesses game_state)) text.

End Vocabulary.

(** ** The task constructor

    [hangman] reads the word lists through [hangman_eval.datasets], which
    is outside this file: the values of the [Language] enumeration in
    definition order, the two word-list queries (by the value of the
    language member) and the reordering [MemoryDataset.shuffle] settles on
    are parameters.  [Language(v)] is the member whose value is [v], and
    raises [ValueError] when there is none. *)

Record WordEntry : Type := mkWordEntry {
  entry_word : string;
  entry_difficulty : Z;
}.

Record Sample : Type := mkSample {
  sample_input : string;
  sample_target : list string;
  sample_metadata : SampleMetadata;
}.

(** The [Task]: its dataset and the flag handed to [hangman_player]; the
    setup and the scorer are always [game_initialiser] and [game_scorer]. *)
Record Task : Type := mkTask {
  task_dataset : list Sample;
  task_solver_allow_word_guesses : bool;
}.

Class Datasets : Type := {
  Language_values : list string;
  get_words_by_difficulty : string → Z → list WordEntry;
  get_words_by_language : string → list WordEntry;
  dataset_shuffle : list Sample → list Sample;
}.

Section TaskConstructor.
Context `{Externals} `{Datasets}.

Definition sample_prompt (lang_value : string) (max_guesses : Z) : string :=
  "You are playing a game of Hangman in " +:+ lang_value +:+ ". "
  +:+ "Try to guess the word one letter at a time. "
  +:+ "The current state shows '_' for unguessed letters and reveals correctly guessed letters. "
  +:+ "You lose the game after " +:+ str_int max_guesses +:+ " incorrect guesses. "
  +:+ "Make smart guesses based on common letter frequencies and word patterns in "
  +:+ lang_value +:+ ".".

Definition make_sample (lang_value : string) (max_guesses : Z)
    (allow_word_guesses : bool) (entry : WordEntry) : Sample :=
  {| sample_input := sample_prompt lang_value max_guesses;
     sample_target := [entry_word entry];
     sample_metadata :=
       {| md_word := Some (entry_word entry);
          md_max_guesses := Some max_guesses;
          md_difficulty := Some (entry_difficulty entry);
          md_language := Some lang_value;
          md_allow_word_guesses := Some allow_word_guesses |} |}.

Definition unsupported_language (language : string) : exn :=
  ValueError ("Language '" +:+ language +:+ "' not supported. Supported languages: "
              +:+ String.concat ", " Language_values).

Definition hangman (language : string) (difficulty : option Z) (max_guesses : Z)
    (shuffle : bool) (allow_word_guesses : bool) : res Task :=
  if negb (bool_decide (lower language ∈ Language_values)) then
    Raise (unsupported_language language)
  else
  let lang_value := lower language in
  match
    match difficulty with
    | Some difficulty =>
        if (difficulty <? 1)%Z || (difficulty >? 5)%Z
        then Raise (ValueError "Difficulty must be between 1 and 5")
        else Return (get_words_by_difficulty lang_value difficulty)
    | None => Return (get_words_by_language lang_value)
    end
  with
  | Raise e => Raise e
  | Return word_entries =>
      let samples :=
        make_sample lang_value max_guesses allow_word_guesses <$> word_entries in
      let dataset := if shuffle then dataset_shuffle samples else samples in
      Return {| task_dataset := dataset;
                task_solver_allow_word_guesses := allow_word_guesses |}
  end.

End TaskConstructor.

(** A word list for the examples: two English words, none for French. *)
Definition example_entries (lang_value : string) : list WordEntry :=
  if bool_decide (lang_value = "english")
  then [mkWordEntry "cat" 1; mkWordEntry "Rhythm" 4] else [].

#[global] Instance example_datasets : Datasets := {|
  Language_values := ["english"; "french"];
  get_words_by_difficulty := λ lang_value difficulty,
    filter (λ e, entry_difficulty e = difficulty) (example_entries lang_value);
  get_words_by_language := example_entries;
  dataset_shuffle := reverse;
|}.

(** ** More vocabulary *)

Section MoreVocabulary.
Context `{Externals}.

(** The guessed letters that cost a life: the ones [guess] did not find in
    the word, in guess order. *)
Definition wrong_letters (self : GameState) : list string :=
  filter (λ letter, str_in letter (word self) = false) (guessed_letters self).

(** The store once the metadata has been read with the default [{}]: the
    same store, with the empty dictionary under the key if it was missing. *)
Definition after_metadata_read (st : Store) : Store :=
  store_set_metadata (default empty_game_metadata (hangman_metadata st)) st.

(** A sequence of tool calls: the agent loop goes on after a failed call,
    with the store as the call left it. *)
Definition tool_calls (letters : list string) (st : Store) : Store :=
  foldl (λ st letter, (hangman_guess letter st).1) st letters.

(** A task state as it is when an episode of a sample begins. *)
Definition sample_state (sample : Sample) (st : Store) (completion : string) : TaskState :=
  mkTaskState (Some (sample_metadata sample)) st (sample_input sample) completion.

(** The same episode with another final submission. *)
Definition with_completion (completion : string) (state : TaskState) : TaskState :=
  {| metadata := metadata state;
     store := store state;
     user_prompt_text := user_prompt_text state;
     output_completion := completion |}.

End MoreVocabulary.

(** ** Concrete episodes, on the ASCII instance *)

(** An unfinished game in which word guesses are allowed, scored on the
    submission ["dog"]. *)
Definition early_state : TaskState :=
  mkTaskState None
    (mkStore (Some (guesses ["a"; "d"] (start "dog" 10)))
             (Some (mkGameMetadata (Some "english") (Some 2%Z) (Some true))))
    "" "dog".

(** A finished, lost game, and its episode at scoring time. *)
Definition lost_game : GameState := guesses ["z"] (start "dog" 1).

Definition finished_state : TaskState :=
  mkTaskState None (mkStore (Some lost_game) None) "" "GG".

(** An unfinished game without word guesses. *)
Definition unfinished_state : TaskState :=
  mkTaskState None (mkStore (Some (start "cat" 3)) None) "" "GG".

(** A game in which a letter was repeated and a non-letter was offered. *)
Definition played_game : GameState :=
  guesses ["a"; "A"; "z"; "1"] (start "cat" 3).

(** A finished, won game. *)
Definition won_game : GameState := guesses ["a"; "t"; "c"] (start "cat" 3).

(** A store with a fresh game and no metadata. *)
Definition live_store : Store := mkStore (Some (start "dog" 2)) None.

(** An episode about to be set up: the word is given in mixed case, word
    guesses are allowed, every other key is missing, and the store still
    holds the game of an earlier set-up. *)
Definition example_metadata : SampleMetadata :=
  mkSampleMetadata (Some "Dog") None None None (Some true).

Definition example_state : TaskState :=
  mkTaskState (Some example_metadata) (mkStore (Some lost_game) None) "" "dog".

(** * Properties *)

(** ** Strings: concatenation, occurrence, joining *)

Lemma app_cons (x : ascii) (a b : string) : String x a +:+ b = String x (a +:+ b).
Proof. reflexivity. Qed.

Lemma app_assoc (a b c : string) : (a +:+ b) +:+ c = a +:+ b +:+ c.
Proof.
  induction a as [|x a IH]; [done|]. by rewrite !app_cons, IH.
Qed.

Lemma length_app (a b : string) :
  String.length (a +:+ b) = (String.length a + String.length b)%nat.
Proof.
  induction a as [|x a IH]; [done|]. rewrite app_cons. simpl. by rewrite IH.
Qed.

Lemma includes_here (x post : string) : includes x (x +:+ post).
Proof. by exists "", post. Qed.

Lemma includes_app_r (x p s : string) : includes x s → includes x (p +:+ s).
Proof.
  intros (pre & post & ->). exists (p +:+ pre), post. by rewrite app_assoc.
Qed.

Lemma is_prefix_app (x post : string) : is_prefix x (x +:+ post) = true.
Proof.
  induction x as [|a x IH]; [done|].
  rewrite app_cons. simpl. rewrite IH. by rewrite bool_decide_eq_true_2.
Qed.

Lemma is_prefix_inv (x s : string) :
  is_prefix x s = true → ∃ post, s = x +:+ post.
Proof.
  revert s. induction x as [|a x IH]; intros s Hp.
  - by exists s.
  - destruct s as [|b s]; simpl in Hp; [done|].
    apply andb_prop in Hp as [Hab Hp]. apply bool_decide_eq_true in Hab as ->.
    destruct (IH _ Hp) as [post ->]. by exists post.
Qed.

(** Python's [x in s] decides [includes]. *)
Lemma str_in_includes (x s : string) : str_in x s = true ↔ includes x s.
Proof.
  split.
  - induction s as [|b s IH]; simpl; intros Hin.
    + rewrite orb_false_r in Hin. apply is_prefix_inv in Hin as [post ->].
      apply includes_here.
    + apply orb_prop in Hin as [Hp | Hin].
      * apply is_prefix_inv in Hp as [post ->]. apply includes_here.
      * apply (includes_app_r x (String b "")). by apply IH.
  - intros (pre & post & ->). induction pre as [|b pre IH].
    + change ("" +:+ x +:+ post) with (x +:+ post).
      destruct (x +:+ post) eqn:E; simpl; rewrite <- E, is_prefix_app; done.
    + rewrite app_cons. simpl. rewrite IH. apply orb_true_r.
Qed.

Lemma length_chars (s : string) : length (chars s) = String.length s.
Proof. induction s as [|c s IH]; simpl; [done | by rewrite IH]. Qed.

Lemma chars_lookup (s : string) (i : nat) (c : ascii) :
  String.get i s = Some c → chars s !! i = Some (String c "").
Proof.
  revert i. induction s as [|a s IH]; intros [|i]; simpl; try done.
  - by intros [= ->].
  - apply IH.
Qed.

Lemma elem_of_chars (x s : string) :
  x ∈ chars s → ∃ c, x = String c "".
Proof.
  induction s as [|a s IH]; simpl; intros Hin.
  - by apply elem_of_nil in Hin.
  - apply elem_of_cons in Hin as [-> | Hin]; [by exists a | by apply IH].
Qed.

(** A one-character string occurs in [s] exactly when it is one of the
    characters of [s]. *)
Lemma str_in_chars (c : ascii) (s : string) :
  str_in (String c "") s = true ↔ String c "" ∈ chars s.
Proof.
  induction s as [|a s IH]; simpl.
  - split; [done | by intros ?%elem_of_nil].
  - rewrite elem_of_cons, orb_true_iff, IH, andb_true_r, bool_decide_eq_true.
    split; (intros [H|H]; [left; congruence | by right]).
Qed.

(** ** The engine *)

Section Engine.
Context `{Externals}.

Lemma rejected_false (letter : string) : rejected letter = false ↔ valid_guess letter.
Proof.
  unfold rejected, valid_guess.
  rewrite orb_false_iff, !negb_false_iff, Nat.eqb_eq. done.
Qed.

Lemma rejected_true (letter : string) : rejected letter = true ↔ ¬ valid_guess letter.
Proof.
  rewrite <- rejected_false. by destruct (rejected letter).
Qed.

(** [guess], one branch at a time. *)
Lemma guess_eq (letter : string) (self : GameState) :
  guess letter self =
    if game_over self then (self, Return self)
    else if rejected letter
    then (self, Raise (ValueError "Guess must be a single letter"))
    else if list_in (lower letter) (guessed_letters self) then (self, Return self)
    else (apply_letter (lower letter) self, Return (apply_letter (lower letter) self)).
Proof.
  unfold guess, rejected, apply_letter, return_self, when, get, modify, raise.
  unfold mbind, M_bind, mret, M_ret. simpl.
  destruct (game_over self); [done|].
  destruct (negb _ || negb _); [done|].
  destruct (list_in _ _); [done|].
  destruct (negb _); simpl;
    (destruct (all_guessed _); simpl; destruct (_ <=? _)%Z; done).
Qed.

Lemma word_apply_letter letter self : word (apply_letter letter self) = word self.
Proof.
  unfold apply_letter. simpl.
  repeat (match goal with |- context [if ?b then _ else _] => destruct b end; simpl);
    done.
Qed.

Lemma guessed_apply_letter letter self :
  guessed_letters (apply_letter letter self) = guessed_letters self ++ [letter].
Proof.
  unfold apply_letter. simpl.
  repeat (match goal with |- context [if ?b then _ else _] => destruct b end; simpl);
    done.
Qed.

Lemma remaining_apply_letter letter self :
  remaining_guesses (apply_letter letter self) =
    if str_in letter (word self) then remaining_guesses self
    else (remaining_guesses self - 1)%Z.
Proof.
  unfold apply_letter. simpl. destruct (str_in letter (word self)); simpl;
  repeat (match goal with |- context [if ?b then _ else _] => destruct b end; simpl);
    done.
Qed.

(** [all_guessed] reads only the word and the guessed letters. *)
Lemma all_guessed_ext (s s' : GameState) :
  word s = word s' → guessed_letters s = guessed_letters s' →
  all_guessed s = all_guessed s'.
Proof. unfold all_guessed. by intros -> ->. Qed.

Lemma all_guessed_spec (s : GameState) :
  all_guessed s = true ↔ ∀ c, c ∈ chars (word s) → c ∈ guessed_letters s.
Proof.
  unfold all_guessed, list_in. rewrite forallb_forall.
  split; intros Hall c Hc.
  - apply list_elem_of_In, Hall in Hc. by apply bool_decide_eq_true in Hc.
  - apply bool_decide_eq_true, Hall. by apply list_elem_of_In.
Qed.

(** After a fresh guess the game is over and won exactly when the word is
    complete: the win check runs whatever the counter says. *)
Lemma apply_letter_complete letter self :
  all_guessed (apply_letter letter self) = true →
  won (apply_letter letter self) = true ∧ game_over (apply_letter letter self) = true.
Proof.
  intros Hall.
  rewrite (all_guessed_ext _ (append_guessed letter self)) in Hall
    by (by rewrite ?word_apply_letter, ?guessed_apply_letter).
  unfold apply_letter. simpl.
  destruct (negb _); simpl.
  - rewrite (all_guessed_ext _ (append_guessed letter self)) by done.
    rewrite Hall. simpl. by destruct (_ <=? _)%Z.
  - rewrite Hall. simpl. by destruct (_ <=? _)%Z.
Qed.

Lemma reachable_live_incomplete (s : GameState) : reachable s → live_incomplete s.
Proof.
  induction 1 as [w n | letter self Hr IH].
  - intros _ Hne. by destruct Hne.
  - rewrite guess_eq.
    destruct (game_over self) eqn:Hover; [done|].
    destruct (rejected letter); [done|].
    destruct (list_in _ _); [done|]. simpl.
    intros Hlive _.
    destruct (all_guessed (apply_letter (lower letter) self)) eqn:Hall; [|done].
    apply apply_letter_complete in Hall as [_ Hover']. congruence.
Qed.

End Engine.

Section EngineClaims.
Context `{Externals}.

Lemma valid_guess_char (letter : string) :
  valid_guess letter → ∃ c, lower letter = String c "".
Proof.
  intros [Hlen _]. destruct (lower letter) as [|c [|d rest]]; try done. by exists c.
Qed.

Lemma list_in_true (x : string) (l : list string) : list_in x l = true ↔ x ∈ l.
Proof. apply bool_decide_eq_true. Qed.

Lemma list_in_false (x : string) (l : list string) : list_in x l = false ↔ x ∉ l.
Proof. apply bool_decide_eq_false. Qed.

(** The counter after one call of [guess]. *)
Lemma remaining_guess (self : GameState) (letter : string) :
  (wrong_new_guess self letter →
     remaining_guesses (guess letter self).1 = (remaining_guesses self - 1)%Z) ∧
  (¬ wrong_new_guess self letter →
     remaining_guesses (guess letter self).1 = remaining_guesses self).
Proof.
  rewrite guess_eq. unfold wrong_new_guess.
  destruct (game_over self); [split; [by intros [? _] | done]|].
  destruct (rejected letter) eqn:Hrej.
  { apply rejected_true in Hrej. split; [by intros (_ & ? & _) | done]. }
  apply rejected_false in Hrej.
  destruct (list_in _ _) eqn:Hin.
  { apply list_in_true in Hin. split; [by intros (_ & _ & ? & _) | done]. }
  apply list_in_false in Hin. simpl. rewrite remaining_apply_letter.
  destruct (valid_guess_char _ Hrej) as [c Hc]. rewrite Hc in *.
  destruct (str_in _ _) eqn:Hw.
  - apply str_in_chars in Hw. split; [by intros (_ & _ & _ & ?) | done].
  - split; [done|]. intros Hn. destruct Hn.
    split; [done|]. split; [done|]. split; [done|].
    intros Hel. apply str_in_chars in Hel. congruence.
Qed.

(** A second call of [guess] with the same argument is a no-op. *)
Lemma guess_idempotent_state (self : GameState) (letter : string) :
  guess letter (guess letter self).1 = guess letter self ∧
  (lower letter ∈ guessed_letters self → (guess letter self).1 = self).
Proof.
  split.
  - rewrite (guess_eq letter self).
    destruct (game_over self) eqn:Hover; simpl.
    { by rewrite guess_eq, Hover. }
    destruct (rejected letter) eqn:Hrej; simpl.
    { by rewrite guess_eq, Hover, Hrej. }
    destruct (list_in _ _) eqn:Hin; simpl.
    { by rewrite guess_eq, Hover, Hrej, Hin. }
    rewrite guess_eq, Hrej.
    destruct (game_over (apply_letter _ _)); [done|].
    replace (list_in _ _) with true; [done|].
    symmetry. apply list_in_true. rewrite guessed_apply_letter.
    apply elem_of_app. right. by apply list_elem_of_singleton.
  - intros Hin. apply list_in_true in Hin. rewrite guess_eq, Hin.
    by destruct (game_over self), (rejected letter).
Qed.

(** A fresh well-formed letter that completes the word wins, in any state. *)
Lemma fresh_guess_completing_wins (self : GameState) (letter : string) :
  game_over self = false → valid_guess letter →
  lower letter ∉ guessed_letters self →
  all_guessed (guess letter self).1 = true →
  guess letter self = ((guess letter self).1, Return (guess letter self).1) ∧
  won (guess letter self).1 = true ∧ game_over (guess letter self).1 = true.
Proof.
  intros Hlive Hvalid Hnew. rewrite guess_eq, Hlive.
  apply rejected_false in Hvalid. rewrite Hvalid.
  apply list_in_false in Hnew. rewrite Hnew. simpl.
  intros Hall. split; [done|]. by apply apply_letter_complete.
Qed.

(** C3.  On a live game of an episode, a well-formed guess after which every
    letter of the word is among the guessed letters returns with the game
    over and won, whatever the remaining-guesses counter says: the win check
    runs before the loss check and the loss check never clears [won]. *)
Theorem win_check_precedes_loss_check (self : GameState) (letter : string) :
  reachable self → game_over self = false → valid_guess letter →
  (∀ c, c ∈ chars (word (guess letter self).1) →
        c ∈ guessed_letters (guess letter self).1) →
  guess letter self = ((guess letter self).1, Return (guess letter self).1) ∧
  won (guess letter self).1 = true ∧ game_over (guess letter self).1 = true.
Proof.
  intros Hreach Hlive Hvalid. rewrite <- all_guessed_spec. intros Hall.
  destruct (decide (lower letter ∈ guessed_letters self)) as [Hin | Hnew].
  - (* a repeated letter leaves the state as it is, and a live game of an
       episode with a guessed letter still hides a letter of the word *)
    apply reachable_live_incomplete in Hreach.
    rewrite (proj2 (guess_idempotent_state self letter) Hin) in Hall.
    rewrite Hreach in Hall; [done | done |].
    intros Hnil. rewrite Hnil in Hin. by apply elem_of_nil in Hin.
  - by apply fresh_guess_completing_wins.
Qed.

(** C4.  Once the game is over, [guess] returns the object it was called on
    and changes none of its fields; the tool does not call [guess], answers
    with the snapshot of that same state and leaves the stored game as it
    was.  (The tool's read of the metadata fills a missing metadata key with
    the empty dictionary; with the key present the whole store is as it
    was.) *)
Theorem guess_after_game_over_is_noop (self : GameState) (letter : string) :
  game_over self = true →
  guess letter self = (self, Return self) ∧
  ∀ st : Store, hangman_game_state st = Some self →
    ∃ st',
      hangman_guess letter st =
        (st', Return (response self
                        (default empty_game_metadata (hangman_metadata st)))) ∧
      hangman_game_state st' = Some self ∧
      hangman_metadata st' =
        Some (default empty_game_metadata (hangman_metadata st)) ∧
      (is_Some (hangman_metadata st) → st' = st).
Proof.
  intros Hover. split.
  - by rewrite guess_eq, Hover.
  - intros [gs [md|]] Hst; simpl in Hst; subst gs;
      unfold hangman_guess, store_get_game_state, store_get_metadata,
        mbind, M_bind, mret, M_ret; simpl; rewrite Hover; simpl;
      (eexists; split; [reflexivity|]; simpl; repeat split; done).
Qed.

(** C5.  Guessing a letter a second time changes nothing: the second call
    leaves the state the first one left and ends the same way; and a letter
    whose lower-case form is already among the guessed letters leaves the
    state as it is. *)
Theorem guess_idempotent (self : GameState) (letter : string) :
  guess letter (guess letter self).1 = guess letter self ∧
  (lower letter ∈ guessed_letters self → (guess letter self).1 = self).
Proof. apply guess_idempotent_state. Qed.

(** C6.  One call of [guess] lowers the counter by exactly one when a live
    game receives a well-formed letter that is new and not in the word, and
    leaves it unchanged in every other case (a letter of the word, a repeated
    letter, a rejected input, a game already over); so no sequence of guesses
    ever raises it. *)
Theorem remaining_guesses_non_increasing :
  (∀ self letter,
     (wrong_new_guess self letter →
        remaining_guesses (guess letter self).1 = (remaining_guesses self - 1)%Z) ∧
     (¬ wrong_new_guess self letter →
        remaining_guesses (guess letter self).1 = remaining_guesses self)) ∧
  (∀ letters self,
     (remaining_guesses (guesses letters self) ≤ remaining_guesses self)%Z).
Proof.
  split; [apply remaining_guess|].
  assert (Hstep : ∀ self letter,
    (remaining_guesses (guess letter self).1 ≤ remaining_guesses self)%Z).
  { intros self letter. destruct (remaining_guess self letter) as [Hdec Hsame].
    destruct (decide (wrong_new_guess self letter)) as [Hw | Hw];
      [rewrite (Hdec Hw) | rewrite (Hsame Hw)]; lia. }
  unfold guesses. induction letters as [|letter letters IH]; intros self; simpl.
  - lia.
  - etrans; [apply IH | apply Hstep].
Qed.

End EngineClaims.

Section MoreEngineClaims.
Context `{Externals}.

(** C7.  On a live game [guess] raises the invalid-guess error exactly when
    the lower-case form of its argument is not one alphabetic character, and
    whenever it raises, the state is the one it was called on. *)
Theorem invalid_guess_rejected_without_mutation (self : GameState) (letter : string) :
  game_over self = false →
  (guess letter self = (self, Raise (ValueError "Guess must be a single letter"))
     ↔ ¬ valid_guess letter) ∧
  (∀ self' e, guess letter self = (self', Raise e) →
     self' = self ∧ e = ValueError "Guess must be a single letter" ∧ ¬ valid_guess letter).
Proof.
  intros Hlive. rewrite guess_eq, Hlive.
  destruct (rejected letter) eqn:Hrej.
  - apply rejected_true in Hrej. split; [done|].
    by intros self' e [= <- <-].
  - apply rejected_false in Hrej.
    destruct (list_in _ _); (split; [split; [done | by intros []] | done]).
Qed.

(** C10.  On a finished game [guess] returns for every argument, the empty
    string, longer strings and non-letters included: it never raises, and
    the state is the one it was called on. *)
Theorem finished_game_accepts_any_input (self : GameState) :
  game_over self = true →
  ∀ letter, guess letter self = (self, Return self) ∧
            ∀ self' e, guess letter self ≠ (self', Raise e).
Proof.
  intros Hover letter. rewrite guess_eq, Hover. done.
Qed.

(** *** The display *)

Lemma length_concat_cells (l : list string) :
  Forall (λ x, String.length x = 1%nat) l →
  String.length (String.concat " " l) = (2 * length l - 1)%nat.
Proof.
  induction 1 as [|x l Hx Hl IH]; [done|].
  destruct l as [|y l].
  - simpl. by rewrite Hx.
  - change (String.concat " " (x :: y :: l))
      with (x +:+ " " +:+ String.concat " " (y :: l)).
    rewrite !length_app, IH, Hx. simpl. lia.
Qed.

Lemma get_concat_cells (l : list string) (i : nat) (c : ascii) :
  Forall (λ x, String.length x = 1%nat) l →
  l !! i = Some (String c "") →
  String.get (2 * i) (String.concat " " l) = Some c.
Proof.
  intros Hl. revert i. induction Hl as [|x l Hx Hl IH]; intros i Hi; [done|].
  destruct x as [|a [|b x]]; try done.
  destruct l as [|y l].
  - destruct i as [|i]; [|done]. simpl in Hi. by injection Hi as ->.
  - change (String.concat " " (String a "" :: y :: l))
      with (String a (String " " (String.concat " " (y :: l)))).
    destruct i as [|i].
    + simpl in Hi. by injection Hi as ->.
    + replace (2 * S i)%nat with (S (S (2 * i))) by lia.
      simpl in Hi. apply IH in Hi. exact Hi.
Qed.

Lemma cells_length_one (self : GameState) :
  Forall (λ x, String.length x = 1%nat) (cell self <$> chars (word self)).
Proof.
  apply Forall_fmap, Forall_forall. intros x Hx.
  apply elem_of_chars in Hx as [c ->]. simpl. unfold cell. by case_bool_decide.
Qed.

(** C8.  The display is the space-joined list of one cell per letter of the
    word, the letter itself when it is among the guessed letters and the
    placeholder otherwise; it has as many cells as the word has letters,
    cell [i] sits at offset [2 * i], and it depends on the guessed letters
    only through the letters of the word. *)
Theorem current_state_projection (self : GameState) :
  (∃ cells : list string,
     current_state self = String.concat " " cells ∧
     length cells = String.length (word self) ∧
     ∀ i c, String.get i (word self) = Some c →
       cells !! i = Some (if bool_decide (String c "" ∈ guessed_letters self)
                          then String c "" else "_")) ∧
  String.length (current_state self) = (2 * String.length (word self) - 1)%nat ∧
  (∀ i c, String.get i (word self) = Some c →
     String.get (2 * i) (current_state self) =
       Some (if bool_decide (String c "" ∈ guessed_letters self)
             then c else "_"%char)) ∧
  (∀ other : GameState,
     word other = word self →
     (∀ c, c ∈ chars (word self) →
        (c ∈ guessed_letters other ↔ c ∈ guessed_letters self)) →
     current_state other = current_state self).
Proof.
  assert (Hcells : ∀ i c, String.get i (word self) = Some c →
    (cell self <$> chars (word self)) !! i = Some (cell self (String c ""))).
  { intros i c Hget. rewrite list_lookup_fmap, (chars_lookup _ _ _ Hget). done. }
  repeat split.
  - exists (cell self <$> chars (word self)). split; [done|]. split.
    + by rewrite length_fmap, length_chars.
    + exact Hcells.
  - change (current_state self)
      with (String.concat " " (cell self <$> chars (word self))).
    rewrite length_concat_cells by apply cells_length_one.
    by rewrite length_fmap, length_chars.
  - intros i c Hget.
    change (current_state self)
      with (String.concat " " (cell self <$> chars (word self))).
    apply get_concat_cells; [apply cells_length_one|].
    rewrite (Hcells _ _ Hget). unfold cell. by case_bool_decide.
  - intros other Hword Hsame. unfold current_state. rewrite Hword. f_equal.
    apply list_fmap_ext. intros i x Hx. apply list_elem_of_lookup_2 in Hx.
    unfold list_in. by rewrite (bool_decide_ext _ _ (Hsame x Hx)).
Qed.

End MoreEngineClaims.

(** ** The initialiser and the scorer *)

Section HarnessClaims.
Context `{Externals}.

(** C9.  When the metadata is absent, has no word, or has the empty word,
    the initialiser raises the missing-word error and the task state, its
    store included, is the one it was called on; with a non-empty word it
    returns the task state, whose store holds the game [start] builds. *)
Theorem missing_word_aborts_setup (state : TaskState) :
  (supplied_word state = None ∨ supplied_word state = Some "" →
     game_initialiser state =
       (state, Raise (RuntimeError "No word provided in metadata"))) ∧
  (∀ w, supplied_word state = Some w → w ≠ "" →
     ∃ state', game_initialiser state = (state', Return state') ∧
       hangman_game_state (store state') =
         Some (start w (default DEFAULT_MAX_GUESSES
                          (metadata state ≫= md_max_guesses)))).
Proof.
  unfold supplied_word, game_initialiser, get, mbind, M_bind, mret, M_ret.
  destruct (metadata state) as [md|]; simpl.
  - destruct (md_word md) as [[|a w]|]; simpl.
    + split; [done | by intros w [= <-]].
    + split; [by intros [|] | ].
      intros w' [= <-] _. eexists. split; reflexivity.
    + split; [done | done].
  - split; [done | done].
Qed.

(** C1.  With word guesses allowed and the game not over, the scorer returns
    the early-guess score: CORRECT exactly when the final submission equals
    the stored word as a string, with the submission as the answer, for any
    guessed letters. *)
Theorem early_guess_scoring (state : TaskState) (game_state : GameState)
    (md : GameMetadata) :
  hangman_game_state (store state) = Some game_state →
  hangman_metadata (store state) = Some md →
  gm_allow_word_guesses md = Some true →
  game_over game_state = false →
  ∃ sc, game_scorer state = Return sc ∧
    (value sc = CORRECT ↔ output_completion state = word game_state) ∧
    answer sc = output_completion state ∧
    explanation sc =
      early_guess_explanation game_state
        (default DEFAULT_LANGUAGE_value (gm_language md))
        (default 3%Z (gm_difficulty md)) (output_completion state).
Proof.
  intros Hgame Hmd Hallow Hlive. unfold game_scorer.
  rewrite Hgame, Hmd. simpl. rewrite Hallow, Hlive. simpl.
  eexists. split; [reflexivity|]. simpl. split; [|done].
  case_bool_decide; split; done.
Qed.

Ltac find_part :=
  first [ apply includes_here
        | apply includes_app_r; find_part ].

Lemma early_guess_explanation_audit game_state language difficulty guessed_word :
  audit_trail game_state language difficulty
    (early_guess_explanation game_state language difficulty guessed_word).
Proof.
  unfold audit_trail, early_guess_explanation. repeat split; find_part.
Qed.

Lemma game_ended_explanation_audit game_state language difficulty :
  audit_trail game_state language difficulty
    (game_ended_explanation game_state language difficulty).
Proof.
  unfold audit_trail, game_ended_explanation. repeat split; find_part.
Qed.

(** C2, as the scorer has it.  Whenever a game is in the store the scorer
    returns a score.  On the early-guess branch and on the branch of a
    finished game the explanation contains the word, the language, the
    difficulty, the guessed letters, the display and the remaining guesses;
    on the branch of a game that never finished, without word guesses, the
    explanation is the fixed sentence and nothing else. *)
Theorem explanation_by_branch (state : TaskState) (game_state : GameState) :
  hangman_game_state (store state) = Some game_state →
  let md := default empty_game_metadata (hangman_metadata (store state)) in
  let language := default DEFAULT_LANGUAGE_value (gm_language md) in
  let difficulty := default 3%Z (gm_difficulty md) in
  let allow_word_guesses := default false (gm_allow_word_guesses md) in
  ∃ sc, game_scorer state = Return sc ∧
    (allow_word_guesses = true ∨ game_over game_state = true →
       audit_trail game_state language difficulty (explanation sc)) ∧
    (allow_word_guesses = false → game_over game_state = false →
       explanation sc = "The game did not complete.").
Proof.
  intros Hgame. simpl. unfold game_scorer. rewrite Hgame.
  destruct (default false _) eqn:Hallow; simpl;
    destruct (game_over game_state) eqn:Hover; simpl;
    (eexists; split; [reflexivity|]; simpl; split; [|done]).
  - intros _. apply game_ended_explanation_audit.
  - intros _. apply early_guess_explanation_audit.
  - intros _. apply game_ended_explanation_audit.
  - by intros [|].
Qed.

End HarnessClaims.

(** * The properties on concrete episodes (ASCII instance) *)

(** The scenarios of the specification. *)

Example scenario_cat :
  current_state (guesses ["a"] (start "cat" 3)) = "_ a _" ∧
  remaining_guesses (guesses ["a"] (start "cat" 3)) = 3%Z ∧
  current_state (guesses ["a"; "t"] (start "cat" 3)) = "_ a t" ∧
  guesses ["a"; "t"; "c"] (start "cat" 3) = mkGameState "cat" ["a"; "t"; "c"] 3 true true ∧
  current_state (guesses ["a"; "t"; "c"] (start "cat" 3)) = "c a t".
Proof. repeat split. Qed.

Example scenario_dog_wrong_guess :
  guesses ["z"] (start "dog" 1) = mkGameState "dog" ["z"] 0 true false.
Proof. reflexivity. Qed.

Example scenario_dog_all_correct :
  guesses ["d"; "o"; "g"] (start "dog" 1) = mkGameState "dog" ["d"; "o"; "g"] 1 true true.
Proof. reflexivity. Qed.

Example incorrect_guesses_sorted :
  incorrect_guesses (guesses ["z"; "x"; "d"; "a"] (start "dog" 10)) = ["a"; "x"; "z"].
Proof. vm_compute. reflexivity. Qed.


Lemma early_guess_scoring_witness :
  ∃ sc, game_scorer early_state = Return sc ∧
    (value sc = CORRECT ↔ "dog" = "dog") ∧
    answer sc = "dog" ∧
    explanation sc =
      early_guess_explanation (guesses ["a"; "d"] (start "dog" 10)) "english" 2 "dog".
Proof.
  exact (early_guess_scoring early_state (guesses ["a"; "d"] (start "dog" 10))
           (mkGameMetadata (Some "english") (Some 2%Z) (Some true))
           eq_refl eq_refl eq_refl eq_refl).
Defined.

Lemma explanation_by_branch_witness :
  ∃ sc, game_scorer finished_state = Return sc ∧
    audit_trail lost_game "english" 3 (explanation sc).
Proof.
  destruct (explanation_by_branch finished_state lost_game eq_refl)
    as (sc & Hsc & Haudit & _).
  exists sc. split; [exact Hsc|]. apply Haudit. right. reflexivity.
Defined.

(** C2 as stated fails on the branch of a game that never finished: the
    explanation is the fixed sentence, which does not contain the word. *)
Lemma unfinished_game_explanation_lacks_audit_trail :
  ∃ sc, game_scorer unfinished_state = Return sc ∧
    explanation sc = "The game did not complete." ∧
    ¬ audit_trail (start "cat" 3) "english" 3 (explanation sc).
Proof.
  eexists. split; [reflexivity|]. split; [reflexivity|].
  intros [Hword _]. apply str_in_includes in Hword. vm_compute in Hword.
  discriminate Hword.
Qed.

Lemma win_check_precedes_loss_check_witness :
  (remaining_guesses (guess "a" (start "a" 0)).1 ≤ 0)%Z ∧
  guess "a" (start "a" 0) =
    ((guess "a" (start "a" 0)).1, Return (guess "a" (start "a" 0)).1) ∧
  won (guess "a" (start "a" 0)).1 = true ∧
  game_over (guess "a" (start "a" 0)).1 = true.
Proof.
  split; [by vm_compute|].
  apply (win_check_precedes_loss_check (start "a" 0) "a").
  - apply reachable_start.
  - reflexivity.
  - split; reflexivity.
  - intros c Hc. exact Hc.
Defined.

Lemma guess_after_game_over_is_noop_witness :
  guess "o" lost_game = (lost_game, Return lost_game) ∧
  ∀ st : Store, hangman_game_state st = Some lost_game →
    ∃ st',
      hangman_guess "o" st =
        (st', Return (response lost_game
                        (default empty_game_metadata (hangman_metadata st)))) ∧
      hangman_game_state st' = Some lost_game ∧
      hangman_metadata st' =
        Some (default empty_game_metadata (hangman_metadata st)) ∧
      (is_Some (hangman_metadata st) → st' = st).
Proof. apply (guess_after_game_over_is_noop lost_game "o"). reflexivity. Defined.

Lemma guess_idempotent_witness :
  (guess "D" (guesses ["d"] (start "dog" 3))).1 = guesses ["d"] (start "dog" 3).
Proof.
  apply (proj2 (guess_idempotent (guesses ["d"] (start "dog" 3)) "D")).
  vm_compute. apply list_elem_of_here.
Defined.

Lemma remaining_guesses_non_increasing_witness :
  remaining_guesses (guess "z" (start "dog" 3)).1 = (3 - 1)%Z.
Proof.
  apply (proj1 (proj1 remaining_guesses_non_increasing (start "dog" 3) "z")).
  split; [reflexivity|]. split; [split; reflexivity|].
  split; apply (bool_decide_eq_false_1 _); reflexivity.
Defined.

Lemma invalid_guess_rejected_without_mutation_witness :
  guess "ab" (start "dog" 1) =
    (start "dog" 1, Raise (ValueError "Guess must be a single letter")).
Proof.
  apply (proj1 (invalid_guess_rejected_without_mutation (start "dog" 1) "ab"
                  eq_refl)).
  intros [Hlen _]. discriminate Hlen.
Defined.

Lemma current_state_projection_witness :
  String.get (2 * 1) (current_state (guesses ["a"; "z"] (start "cat" 3)))
    = Some "a"%char.
Proof.
  exact (proj1 (proj2 (proj2
           (current_state_projection (guesses ["a"; "z"] (start "cat" 3)))))
           1%nat "a"%char eq_refl).
Defined.

Lemma missing_word_aborts_setup_witness :
  game_initialiser (mkTaskState None empty_store "" "") =
    (mkTaskState None empty_store "" "",
     Raise (RuntimeError "No word provided in metadata")).
Proof.
  apply (proj1 (missing_word_aborts_setup (mkTaskState None empty_store "" ""))).
  left. reflexivity.
Defined.

Lemma finished_game_accepts_any_input_witness :
  guess "" lost_game = (lost_game, Return lost_game) ∧
  ∀ self' e, guess "" lost_game ≠ (self', Raise e).
Proof. apply (finished_game_accepts_any_input lost_game eq_refl ""). Defined.

(** * Further properties of the engine *)

Section EngineInvariants.
Context `{Externals}.

(** One call of [guess] either leaves the state as it is or applies a fresh,
    well-formed letter to a live game. *)
Lemma guess_cases (letter : string) (self : GameState) :
  (guess letter self).1 = self ∨
  (game_over self = false ∧ valid_guess letter ∧
   (lower letter ∉ guessed_letters self) ∧
   (guess letter self).1 = apply_letter (lower letter) self).
Proof.
  rewrite guess_eq.
  destruct (game_over self) eqn:Hover; [by left|].
  destruct (rejected letter) eqn:Hrej; [by left|].
  destruct (list_in _ _) eqn:Hin; [by left|].
  right. apply rejected_false in Hrej. by apply list_in_false in Hin.
Qed.

Lemma guesses_snoc (letters : list string) (letter : string) (self : GameState) :
  guesses (letters ++ [letter]) self = (guess letter (guesses letters self)).1.
Proof. unfold guesses. by rewrite foldl_app. Qed.

(** A property kept by every call of [guess] is kept by every sequence. *)
Lemma guesses_ind (P : GameState → Prop) :
  (∀ letter self, P self → P (guess letter self).1) →
  ∀ letters self, P self → P (guesses letters self).
Proof.
  intros Hstep letters. induction letters as [|letter letters IH]; intros self HP.
  - exact HP.
  - apply (IH (guess letter self).1), Hstep, HP.
Qed.

Lemma reachable_guesses (letters : list string) (self : GameState) :
  reachable self → reachable (guesses letters self).
Proof. apply guesses_ind. intros letter s. apply reachable_guess. Qed.

Lemma game_over_apply_letter letter self :
  game_over (apply_letter letter self) =
    game_over self || all_guessed (append_guessed letter self)
    || (remaining_guesses (apply_letter letter self) <=? 0)%Z.
Proof.
  rewrite remaining_apply_letter. unfold apply_letter, all_guessed. simpl.
  destruct (str_in letter (word self)); simpl;
    destruct (forallb _ _); simpl; destruct (_ <=? _)%Z; simpl;
    by rewrite ?orb_true_r, ?orb_false_r.
Qed.

Lemma won_apply_letter letter self :
  won (apply_letter letter self) =
    won self || all_guessed (append_guessed letter self).
Proof.
  unfold apply_letter, all_guessed. simpl.
  destruct (str_in letter (word self)); simpl;
    destruct (forallb _ _); simpl; destruct (_ <=? _)%Z; simpl;
    by rewrite ?orb_true_r, ?orb_false_r.
Qed.

Lemma all_guessed_apply_letter letter self :
  all_guessed (apply_letter letter self) = all_guessed (append_guessed letter self).
Proof.
  apply all_guessed_ext; by rewrite ?word_apply_letter, ?guessed_apply_letter.
Qed.

(** X1.  [guess] never changes the word, whatever it is given and however
    often it is called. *)
Theorem word_never_changes (letters : list string) (self : GameState) :
  word (guesses letters self) = word self.
Proof.
  revert self. induction letters as [|letter letters IH]; intros self; [done|].
  change (guesses (letter :: letters) self)
    with (guesses letters (guess letter self).1).
  rewrite IH. destruct (guess_cases letter self) as [-> | (_ & _ & _ & ->)];
    [done | apply word_apply_letter].
Qed.

(** X2.  The guessed letters only grow, at the end: one call appends the
    lower-case letter or nothing, and after any sequence of calls the old
    list is a prefix of the new one. *)
Theorem guessed_letters_only_grow (self : GameState) :
  (∀ letter,
     guessed_letters (guess letter self).1 = guessed_letters self ∨
     guessed_letters (guess letter self).1 = guessed_letters self ++ [lower letter]) ∧
  (∀ letters, guessed_letters self `prefix_of` guessed_letters (guesses letters self)).
Proof.
  assert (Hone : ∀ s letter,
     guessed_letters (guess letter s).1 = guessed_letters s ∨
     guessed_letters (guess letter s).1 = guessed_letters s ++ [lower letter]).
  { intros s letter. destruct (guess_cases letter s) as [-> | (_ & _ & _ & ->)];
      [by left | right; apply guessed_apply_letter]. }
  split; [apply Hone|].
  intros letters. revert self.
  induction letters as [|letter letters IH]; intros self; [done|].
  change (guesses (letter :: letters) self)
    with (guesses letters (guess letter self).1).
  etrans; [|apply IH].
  destruct (Hone self letter) as [-> | ->]; [done | by apply prefix_app_r].
Qed.

Lemma guessed_letters_invariant (self : GameState) :
  reachable self →
  NoDup (guessed_letters self) ∧
  Forall (λ x, String.length x = 1%nat ∧ isalpha x = true) (guessed_letters self).
Proof.
  induction 1 as [w n | letter self Hr [IHnd IHv]].
  - split; [apply NoDup_nil_2 | apply Forall_nil_2].
  - destruct (guess_cases letter self) as [-> | (_ & Hvalid & Hnew & ->)]; [done|].
    rewrite guessed_apply_letter. split.
    + apply NoDup_app. split; [done|]. split; [|apply NoDup_singleton].
      intros x Hx Hx'. apply list_elem_of_singleton in Hx' as ->. done.
    + apply Forall_app. split; [done|]. by apply Forall_singleton.
Qed.

(** X3.  In an episode no letter is recorded twice, and every recorded letter
    is one alphabetic character, as [guess] accepted it. *)
Theorem guessed_letters_distinct_and_valid (self : GameState) :
  reachable self →
  NoDup (guessed_letters self) ∧
  Forall (λ x, String.length x = 1%nat ∧ isalpha x = true) (guessed_letters self).
Proof. apply guessed_letters_invariant. Qed.

(** Once the game is over it stays over: no sequence of further guesses
    changes anything. *)
Lemma game_over_is_permanent (letters : list string) (self : GameState) :
  game_over self = true → guesses letters self = self.
Proof.
  intros Hover. induction letters as [|letter letters IH]; [done|].
  change (guesses (letter :: letters) self)
    with (guesses letters (guess letter self).1).
  by rewrite guess_eq, Hover.
Qed.

Lemma won_invariant_eq (self : GameState) :
  reachable self → won self = game_over self && all_guessed self.
Proof.
  induction 1 as [w n | letter self Hr IH]; [done|].
  destruct (guess_cases letter self) as [-> | (Hlive & _ & _ & ->)]; [done|].
  rewrite won_apply_letter, game_over_apply_letter, all_guessed_apply_letter.
  rewrite IH, Hlive. simpl.
  destruct (all_guessed (append_guessed _ _)); destruct (_ <=? _)%Z; done.
Qed.

Lemma won_invariant (self : GameState) :
  reachable self → won self = true → game_over self && all_guessed self = true.
Proof. intros Hr Hw. by rewrite <- won_invariant_eq. Qed.

(** X4.  In an episode [won] is set exactly when the game is over and every
    letter of the word is among the guessed letters; in particular a won
    game is over. *)
Theorem won_iff_over_and_complete (self : GameState) :
  reachable self →
  (won self = true ↔
   game_over self = true ∧ ∀ c, c ∈ chars (word self) → c ∈ guessed_letters self).
Proof.
  intros Hr. rewrite <- all_guessed_spec.
  rewrite <- andb_true_iff. split; intros Hw.
  - by apply won_invariant.
  - destruct (won self) eqn:Hwon; [done|].
    destruct (game_over self && all_guessed self) eqn:Hb; [|done].
    assert (Hinv := won_invariant_eq self Hr). congruence.
Qed.

(** X5.  In an episode a game that is over was either won or lost with the
    counter at zero or below, and a live game in which a letter has been
    guessed still has a guess left. *)
Theorem over_means_won_or_out_of_guesses (self : GameState) :
  reachable self →
  (game_over self = true → won self = true ∨ (remaining_guesses self ≤ 0)%Z) ∧
  (game_over self = false → guessed_letters self ≠ [] →
     (0 < remaining_guesses self)%Z).
Proof.
  induction 1 as [w n | letter self Hr [IHover IHlive]].
  - split; [done | by intros _ []].
  - destruct (guess_cases letter self) as [-> | (Hlive & _ & _ & ->)]; [done|].
    rewrite won_apply_letter, game_over_apply_letter, Hlive. simpl.
    destruct (all_guessed _); simpl.
    + split; [intros _; left; apply orb_true_r | done].
    + destruct (_ <=? _)%Z eqn:Hle.
      * split; [intros _; right; lia | done].
      * split; [done | intros _ _; lia].
Qed.

(** X6.  Guesses are case-insensitive as far as [lower] is: two arguments
    with the same lower-case form have the same effect and the same
    outcome. *)
Theorem guess_depends_on_lower_case_only (self : GameState) (a b : string) :
  lower a = lower b → guess a self = guess b self.
Proof.
  intros Hab. rewrite !guess_eq. unfold rejected. by rewrite Hab.
Qed.

End EngineInvariants.

Section Budget.
Context `{Externals}.

Lemma incorrect_guesses_spec (self : GameState) :
  Sorted String.le (incorrect_guesses self) ∧
  NoDup (incorrect_guesses self) ∧
  ∀ x, x ∈ incorrect_guesses self ↔
       x ∈ guessed_letters self ∧ (x ∉ chars (word self)).
Proof.
  unfold incorrect_guesses. split; [apply Sorted_merge_sort; apply _|]. split.
  - rewrite merge_sort_Permutation. apply NoDup_elements.
  - intros x. rewrite merge_sort_Permutation, elem_of_elements,
      elem_of_difference, !elem_of_list_to_set. done.
Qed.

(** X7.  The list of incorrect guesses is sorted, has no duplicates, and
    holds exactly the guessed letters that are not characters of the word,
    in any state. *)
Theorem incorrect_guesses_sorted_distinct (self : GameState) :
  Sorted String.le (incorrect_guesses self) ∧
  NoDup (incorrect_guesses self) ∧
  ∀ x, x ∈ incorrect_guesses self ↔
       x ∈ guessed_letters self ∧ (x ∉ chars (word self)).
Proof. apply incorrect_guesses_spec. Qed.

Lemma wrong_letters_apply_letter letter self :
  wrong_letters (apply_letter letter self) =
    wrong_letters self ++ (if str_in letter (word self) then [] else [letter]).
Proof.
  unfold wrong_letters. rewrite word_apply_letter, guessed_apply_letter, filter_app.
  f_equal. rewrite filter_cons, filter_nil.
  destruct (str_in letter (word self)); by case_decide.
Qed.

(** In an episode the incorrect guesses are the letters that cost a life. *)
Lemma incorrect_guesses_wrong_letters (self : GameState) :
  reachable self → incorrect_guesses self ≡ₚ wrong_letters self.
Proof.
  intros Hr. destruct (guessed_letters_invariant self Hr) as [Hnd Hv].
  destruct (incorrect_guesses_spec self) as (_ & Hnd' & Hmem).
  apply NoDup_Permutation; [done | by apply NoDup_filter |].
  intros x. rewrite Hmem. unfold wrong_letters. rewrite list_elem_of_filter.
  split.
  - intros [Hx Hnot]. split; [|done].
    rewrite Forall_forall in Hv. destruct (Hv x Hx) as [Hlen _].
    destruct x as [|c [|d x]]; try done.
    destruct (str_in _ _) eqn:Hin; [|done]. by apply str_in_chars in Hin.
  - intros [Hstr Hx]. split; [done|]. intros Hin.
    apply elem_of_chars in Hin as Hc. destruct Hc as [c ->].
    apply str_in_chars in Hin. congruence.
Qed.

Lemma remaining_accounts_wrong_letters (w : string) (n : Z) (letters : list string) :
  remaining_guesses (guesses letters (start w n)) =
    (n - Z.of_nat (length (wrong_letters (guesses letters (start w n)))))%Z.
Proof.
  apply (guesses_ind (λ s,
    remaining_guesses s = (n - Z.of_nat (length (wrong_letters s)))%Z)).
  - intros letter self IH.
    destruct (guess_cases letter self) as [-> | (_ & _ & _ & ->)]; [done|].
    rewrite remaining_apply_letter, wrong_letters_apply_letter, List.length_app, IH.
    destruct (str_in _ _); simpl; lia.
  - simpl. lia.
Qed.

Lemma remaining_positive_while_live (w : string) (n : Z) (letters : list string) :
  (0 < n)%Z →
  (0 ≤ remaining_guesses (guesses letters (start w n)))%Z ∧
  (game_over (guesses letters (start w n)) = false →
     (0 < remaining_guesses (guesses letters (start w n)))%Z).
Proof.
  intros Hn.
  apply (guesses_ind (λ s,
    (0 ≤ remaining_guesses s)%Z ∧ (game_over s = false → (0 < remaining_guesses s)%Z))).
  - intros letter self [IH0 IHlive].
    destruct (guess_cases letter self) as [-> | (Hlive & _ & _ & ->)]; [done|].
    specialize (IHlive Hlive).
    rewrite game_over_apply_letter, Hlive, remaining_apply_letter. simpl.
    destruct (str_in _ _).
    + split; [lia|]. intros _. lia.
    + split; [lia|]. intros Hover. apply orb_false_iff in Hover as [_ Hle].
      apply Z.leb_gt in Hle. lia.
  - simpl. split; [lia | intros _; lia].
Qed.

(** X8.  Throughout a game the counter is the budget minus the number of
    incorrect guesses: every incorrect guess costs exactly one, nothing else
    costs anything. *)
Theorem remaining_is_budget_minus_incorrect (w : string) (n : Z)
    (letters : list string) :
  remaining_guesses (guesses letters (start w n)) =
    (n - Z.of_nat (length (incorrect_guesses (guesses letters (start w n)))))%Z.
Proof.
  rewrite remaining_accounts_wrong_letters.
  rewrite (Permutation_length (incorrect_guesses_wrong_letters _
             (reachable_guesses letters _ (reachable_start w n)))).
  done.
Qed.

(** X9.  With a positive budget the counter never goes below zero, it is
    positive as long as the game is live, and the player is never charged
    more incorrect guesses than the budget. *)
Theorem positive_budget_bounds (w : string) (n : Z) (letters : list string) :
  (0 < n)%Z →
  (0 ≤ remaining_guesses (guesses letters (start w n)) ≤ n)%Z ∧
  (game_over (guesses letters (start w n)) = false →
     (0 < remaining_guesses (guesses letters (start w n)))%Z) ∧
  (Z.of_nat (length (incorrect_guesses (guesses letters (start w n)))) ≤ n)%Z.
Proof.
  intros Hn. destruct (remaining_positive_while_live w n letters Hn) as [H0 Hlive].
  pose proof (remaining_accounts_wrong_letters w n letters) as Hacc.
  assert (Hperm : length (incorrect_guesses (guesses letters (start w n))) =
                  length (wrong_letters (guesses letters (start w n)))).
  { apply Permutation_length, incorrect_guesses_wrong_letters.
    apply reachable_guesses, reachable_start. }
  rewrite Hperm. repeat split; try done; lia.
Qed.

End Budget.

Section Display.
Context `{Externals}.

Lemma start_display (w : string) (n : Z) :
  current_state (start w n) =
    String.concat " " (replicate (String.length (lower w)) "_").
Proof.
  unfold current_state, start; cbn [word guessed_letters]. f_equal.
  rewrite <- length_chars. apply const_fmap. intros i x _.
  unfold list_in. by rewrite bool_decide_eq_false_2 by apply not_elem_of_nil.
Qed.

(** X10.  A new game shows one placeholder per letter of the word and
    nothing else. *)
Theorem new_game_display_is_blank (w : string) (n : Z) :
  current_state (start w n) =
    String.concat " " (replicate (String.length (lower w)) "_").
Proof. apply start_display. Qed.

(** X11.  When every letter of the word has been guessed the display is the
    word itself, letter by letter, with no placeholder put in. *)
Theorem complete_game_display_is_word (self : GameState) :
  (∀ c, c ∈ chars (word self) → c ∈ guessed_letters self) →
  current_state self = String.concat " " (chars (word self)).
Proof.
  intros Hall. unfold current_state. f_equal.
  rewrite <- (list_fmap_id (chars (word self))) at 2.
  apply list_fmap_ext. intros i x Hx. apply list_elem_of_lookup_2 in Hx.
  unfold list_in. by rewrite bool_decide_eq_true_2 by by apply Hall.
Qed.

End Display.

(** * Further properties of the tool *)

Section ToolProperties.
Context `{Externals}.

Lemma store_set_game_state_same (st : Store) (g : GameState) :
  hangman_game_state st = Some g → store_set_game_state g st = st.
Proof. destruct st as [gs md]. simpl. by intros ->. Qed.

Lemma after_metadata_read_present (st : Store) :
  is_Some (hangman_metadata st) → after_metadata_read st = st.
Proof. destruct st as [gs [md|]]; [done | by intros [? ?]]. Qed.

Lemma store_get_metadata_eq (st : Store) :
  store_get_metadata st =
    (after_metadata_read st,
     Return (default empty_game_metadata (hangman_metadata st))).
Proof. unfold store_get_metadata. by destruct st as [gs [md|]]. Qed.

(** [hangman_guess] on a store that holds no game. *)
Lemma hangman_guess_no_game (letter : string) (st : Store) :
  hangman_game_state st = None →
  hangman_guess letter st =
    (after_metadata_read st,
     Raise (RuntimeError
       "No game in progress. The game must be started by the evaluation setup.")).
Proof.
  intros Hnone. unfold hangman_guess, store_get_game_state, raise, mbind, M_bind.
  by rewrite Hnone, store_get_metadata_eq.
Qed.

(** [hangman_guess] on a store that holds a game. *)
Lemma hangman_guess_eq (letter : string) (st : Store) (g : GameState) :
  hangman_game_state st = Some g →
  hangman_guess letter st =
    match (guess letter g).2 with
    | Return _ =>
        (store_set_game_state (guess letter g).1 (after_metadata_read st),
         Return (response (guess letter g).1
                   (default empty_game_metadata (hangman_metadata st))))
    | Raise e => (after_metadata_read st, Raise e)
    end.
Proof.
  intros Hg.
  assert (Hsame : ∀ g', g' = g →
    store_set_game_state g' (after_metadata_read st) = after_metadata_read st).
  { intros g' ->. by apply store_set_game_state_same. }
  unfold hangman_guess, store_get_game_state, on_game_state,
    mbind, M_bind, mret, M_ret.
  rewrite Hg, store_get_metadata_eq. destruct (game_over g) eqn:Hover; simpl.
  - rewrite guess_eq, Hover. simpl. by rewrite Hsame.
  - rewrite guess_eq, Hover.
    destruct (rejected letter); simpl; [by rewrite Hsame|].
    by destruct (list_in _ _).
Qed.

(** X12.  The tool raises in two cases only: [RuntimeError] when the store
    holds no game, and the engine's [ValueError] when a live game is given a
    malformed letter.  In both the stored game is as it was; the one change
    the call can make to the store is to fill a missing metadata key with
    the empty dictionary, and with the key present the store is as it
    was. *)
Theorem tool_raises_only_without_game_or_on_bad_letter (letter : string) (st : Store) :
  (hangman_game_state st = None →
     hangman_guess letter st =
       (after_metadata_read st,
        Raise (RuntimeError
          "No game in progress. The game must be started by the evaluation setup."))) ∧
  (∀ g, hangman_game_state st = Some g → game_over g = false → ¬ valid_guess letter →
     hangman_guess letter st =
       (after_metadata_read st, Raise (ValueError "Guess must be a single letter"))) ∧
  (∀ st' e, hangman_guess letter st = (st', Raise e) →
     hangman_game_state st' = hangman_game_state st ∧
     hangman_metadata st' =
       Some (default empty_game_metadata (hangman_metadata st)) ∧
     (is_Some (hangman_metadata st) → st' = st) ∧
     (hangman_game_state st = None ∨
      ∃ g, hangman_game_state st = Some g ∧ game_over g = false ∧ ¬ valid_guess letter)).
Proof.
  split; [|split].
  - apply hangman_guess_no_game.
  - intros g Hg Hlive Hbad. rewrite (hangman_guess_eq _ _ _ Hg), guess_eq, Hlive.
    apply rejected_true in Hbad. by rewrite Hbad.
  - intros st' e. destruct (hangman_game_state st) as [g|] eqn:Hg.
    + rewrite (hangman_guess_eq _ _ _ Hg), guess_eq.
      destruct (game_over g) eqn:Hover; simpl; [done|].
      destruct (rejected letter) eqn:Hrej; simpl.
      * intros [= <- <-]. split; [done|]. split; [done|].
        split; [apply after_metadata_read_present|]. right. exists g.
        by apply rejected_true in Hrej.
      * by destruct (list_in _ _).
    + rewrite (hangman_guess_no_game _ _ Hg).
      intros [= <- <-]. split; [done|]. split; [done|].
      split; [apply after_metadata_read_present | by left].
Qed.

(** X13.  When the tool returns, the store holds the game as [guess] left
    it, the metadata under its key is what was there before (the empty
    dictionary if the key was missing), and the response is the snapshot of
    that very game with that metadata: the agent is never shown a stale
    state. *)
Theorem tool_response_is_snapshot_of_store (letter : string) (st st' : Store)
    (r : Response) :
  hangman_guess letter st = (st', Return r) →
  ∃ g, hangman_game_state st = Some g ∧
       hangman_game_state st' = Some (guess letter g).1 ∧
       hangman_metadata st' =
         Some (default empty_game_metadata (hangman_metadata st)) ∧
       r = response (guess letter g).1
             (default empty_game_metadata (hangman_metadata st')).
Proof.
  destruct (hangman_game_state st) as [g|] eqn:Hg.
  - rewrite (hangman_guess_eq _ _ _ Hg).
    destruct (guess letter g).2; [|done].
    intros [= <- <-]. by exists g.
  - by rewrite (hangman_guess_no_game _ _ Hg).
Qed.

Lemma tool_call_state (letter : string) (st : Store) (g : GameState) :
  hangman_game_state st = Some g →
  hangman_game_state (hangman_guess letter st).1 = Some (guess letter g).1 ∧
  hangman_metadata (hangman_guess letter st).1 =
    Some (default empty_game_metadata (hangman_metadata st)).
Proof.
  intros Hg. rewrite (hangman_guess_eq _ _ _ Hg).
  destruct (guess letter g) as [g' [a|e]] eqn:Hguess; simpl; [done|].
  split; [|done]. rewrite Hg. f_equal.
  rewrite guess_eq in Hguess.
  destruct (game_over g); [by injection Hguess|].
  destruct (rejected letter); [by injection Hguess|].
  by destruct (list_in _ _).
Qed.

Lemma tool_calls_state (letters : list string) (st : Store) (g : GameState) :
  hangman_game_state st = Some g →
  hangman_game_state (tool_calls letters st) = Some (guesses letters g) ∧
  default empty_game_metadata (hangman_metadata (tool_calls letters st)) =
    default empty_game_metadata (hangman_metadata st) ∧
  (letters ≠ [] →
     hangman_metadata (tool_calls letters st) =
       Some (default empty_game_metadata (hangman_metadata st))).
Proof.
  revert st g. induction letters as [|letter letters IH]; intros st g Hg; [done|].
  destruct (tool_call_state letter st g Hg) as [Hg' Hmd'].
  destruct (IH _ _ Hg') as (IHg & IHmd & IHne).
  change (tool_calls (letter :: letters) st)
    with (tool_calls letters (hangman_guess letter st).1).
  change (guesses (letter :: letters) g) with (guesses letters (guess letter g).1).
  rewrite Hmd' in IHmd, IHne. simpl in IHmd, IHne.
  split; [done|]. split; [done|]. intros _.
  destruct letters as [|letter' letters]; [exact Hmd' | by apply IHne].
Qed.

(** X14.  The tool is a faithful adapter of the engine: after any sequence
    of tool calls, failed ones included, the store holds the game the same
    sequence of [guess] calls produces, and the metadata a reader finds is
    the one that was there before (the empty dictionary, now stored under
    the key, if the key was missing). *)
Theorem tool_calls_follow_engine (letters : list string) (st : Store)
    (g : GameState) :
  hangman_game_state st = Some g →
  hangman_game_state (tool_calls letters st) = Some (guesses letters g) ∧
  default empty_game_metadata (hangman_metadata (tool_calls letters st)) =
    default empty_game_metadata (hangman_metadata st) ∧
  (letters ≠ [] →
     hangman_metadata (tool_calls letters st) =
       Some (default empty_game_metadata (hangman_metadata st))).
Proof. apply tool_calls_state. Qed.

(** X15.  What the agent is told adds up: in a game started with budget
    [n], every response has remaining guesses plus the number of listed
    incorrect guesses equal to [n], and reports a win only for a game that
    is over. *)
Theorem tool_response_adds_up (w : string) (n : Z) (letters : list string)
    (letter : string) (st st' : Store) (r : Response) :
  hangman_game_state st = Some (start w n) →
  hangman_guess letter (tool_calls letters st) = (st', Return r) →
  (resp_remaining_guesses r + Z.of_nat (length (resp_incorrect_guesses r)) = n)%Z ∧
  (resp_won r = true → resp_game_over r = true).
Proof.
  intros Hg Hcall. destruct (tool_calls_state letters st _ Hg) as [Hg' _].
  rewrite (hangman_guess_eq _ _ _ Hg') in Hcall.
  destruct (guess letter (guesses letters (start w n))).2; [|done].
  injection Hcall as _ <-. simpl.
  rewrite <- guesses_snoc. split.
  - rewrite (remaining_accounts_wrong_letters w n (letters ++ [letter])).
    rewrite (Permutation_length (incorrect_guesses_wrong_letters _
               (reachable_guesses (letters ++ [letter]) _ (reachable_start w n)))).
    lia.
  - intros Hwon. apply (won_invariant _
      (reachable_guesses (letters ++ [letter]) _ (reachable_start w n))) in Hwon.
    by apply andb_true_iff in Hwon as [? _].
Qed.

End ToolProperties.

(** * Further properties of the initialiser and the scorer *)

Section SetupAndScoring.
Context `{Externals}.

(** [game_initialiser] on metadata with a non-empty word. *)
Lemma game_initialiser_eq (state : TaskState) (md : SampleMetadata) (w : string) :
  metadata state = Some md → md_word md = Some w → w ≠ "" →
  let max_guesses := default DEFAULT_MAX_GUESSES (md_max_guesses md) in
  let language := default DEFAULT_LANGUAGE_value (md_language md) in
  let state' :=
    {| metadata := metadata state;
       store :=
         {| hangman_game_state := Some (start w max_guesses);
            hangman_metadata :=
              Some {| gm_language := Some language;
                      gm_difficulty := Some (default 3%Z (md_difficulty md));
                      gm_allow_word_guesses :=
                        Some (default false (md_allow_word_guesses md)) |} |};
       user_prompt_text := prompt_text language max_guesses w;
       output_completion := output_completion state |} in
  game_initialiser state = (state', Return state').
Proof.
  intros Hmd Hw Hne. unfold game_initialiser, get, modify, mbind, M_bind.
  rewrite Hmd. simpl. rewrite Hw. destruct w as [|a w]; [done|].
  unfold task_set_store, task_set_prompt. simpl. by rewrite Hmd.
Qed.

(** X16.  A successful initialisation starts from scratch: the store it
    leaves is fixed by the sample metadata alone, with 10 guesses, the
    default language, difficulty 3 and no word guesses where a key is
    missing; whatever the store held before is replaced. *)
Theorem initialiser_resets_store (state : TaskState) (md : SampleMetadata)
    (w : string) :
  metadata state = Some md → md_word md = Some w → w ≠ "" →
  store (game_initialiser state).1 =
    {| hangman_game_state :=
         Some (start w (default 10%Z (md_max_guesses md)));
       hangman_metadata :=
         Some {| gm_language :=
                   Some (default DEFAULT_LANGUAGE_value (md_language md));
                 gm_difficulty := Some (default 3%Z (md_difficulty md));
                 gm_allow_word_guesses :=
                   Some (default false (md_allow_word_guesses md)) |} |}.
Proof.
  intros Hmd Hw Hne. by rewrite (game_initialiser_eq state md w Hmd Hw Hne).
Qed.

(** X17.  When lower-casing keeps the length of the word, the masked word in
    the rewritten prompt is the display of the game just started, so the
    prompt and the first tool response agree. *)
Theorem prompt_mask_is_initial_display (state : TaskState) (md : SampleMetadata)
    (w : string) :
  metadata state = Some md → md_word md = Some w → w ≠ "" →
  String.length (lower w) = String.length w →
  ∃ game_state, hangman_game_state (store (game_initialiser state).1) = Some game_state ∧
    user_prompt_text (game_initialiser state).1 =
      "Let's play hangman in " +:+ default DEFAULT_LANGUAGE_value (md_language md)
      +:+ "! You have " +:+ str_int (remaining_guesses game_state) +:+ " guesses."
      +:+ newline +:+ "The word is " +:+ current_state game_state +:+ "." +:+ newline.
Proof.
  intros Hmd Hw Hne Hlen. rewrite (game_initialiser_eq state md w Hmd Hw Hne).
  eexists. split; [reflexivity|]. simpl.
  rewrite start_display, Hlen. done.
Qed.

(** X18.  After a successful initialisation the tool is ready: a well-formed
    first guess returns, with the language of the sample (or the default)
    and with the budget, less one if the letter is not in the word. *)
Theorem tool_works_after_initialisation (state : TaskState) (md : SampleMetadata)
    (w letter : string) :
  metadata state = Some md → md_word md = Some w → w ≠ "" →
  valid_guess letter →
  ∃ st' r, hangman_guess letter (store (game_initialiser state).1) = (st', Return r) ∧
    resp_language r = default DEFAULT_LANGUAGE_value (md_language md) ∧
    resp_remaining_guesses r =
      (default 10 (md_max_guesses md)
       - if str_in (lower letter) (lower w) then 0 else 1)%Z.
Proof.
  intros Hmd Hw Hne Hvalid. rewrite (game_initialiser_eq state md w Hmd Hw Hne).
  simpl. erewrite hangman_guess_eq by reflexivity.
  rewrite guess_eq. simpl. apply rejected_false in Hvalid. rewrite Hvalid.
  eexists _, _. split; [reflexivity|]. split; [done|]. simpl.
  rewrite remaining_apply_letter. simpl.
  unfold DEFAULT_MAX_GUESSES. destruct (str_in _ _); lia.
Qed.

(** X19.  Scoring right after a successful initialisation, before any guess:
    with word guesses the submission is CORRECT exactly when it is the
    lower-cased word, without them the score is INCORRECT. *)
Theorem score_straight_after_initialisation (state : TaskState)
    (md : SampleMetadata) (w : string) :
  metadata state = Some md → md_word md = Some w → w ≠ "" →
  ∃ sc, game_scorer (game_initialiser state).1 = Return sc ∧
    (value sc = CORRECT ↔
       md_allow_word_guesses md = Some true ∧ output_completion state = lower w).
Proof.
  intros Hmd Hw Hne. rewrite (game_initialiser_eq state md w Hmd Hw Hne).
  unfold game_scorer. simpl.
  destruct (md_allow_word_guesses md) as [[|]|]; simpl;
    (eexists; split; [reflexivity|]; simpl).
  - case_bool_decide; split; try done. by intros [_ ?].
  - split; [done | by intros [? _]].
  - split; [done | by intros [? _]].
Qed.

(** X20.  The scorer raises exactly when the store holds no game; with a
    game it always returns a score. *)
Theorem scorer_raises_iff_no_game (state : TaskState) :
  (hangman_game_state (store state) = None →
     game_scorer state = Raise (RuntimeError "No game state found in store")) ∧
  (∀ e, game_scorer state = Raise e → hangman_game_state (store state) = None).
Proof.
  unfold game_scorer. destruct (hangman_game_state (store state)) as [g|].
  - split; [done|]. intros e.
    destruct (default false _ && negb _); [done|]. by destruct (negb _).
  - done.
Qed.

Lemma standard_mode_value (state : TaskState) (g : GameState) :
  hangman_game_state (store state) = Some g →
  default false
    (gm_allow_word_guesses
       (default empty_game_metadata (hangman_metadata (store state)))) = false →
  ∃ sc, game_scorer state = Return sc ∧ answer sc = current_state g ∧
    value sc = if game_over g && won g then CORRECT else INCORRECT.
Proof.
  intros Hg Hallow. unfold game_scorer. rewrite Hg, Hallow. simpl.
  destruct (game_over g); simpl; eexists; (split; [reflexivity|]); done.
Qed.

(** X21.  Without word guesses the verdict is the game's: CORRECT exactly
    when the game is over and won, which in an episode means over with every
    letter of the word guessed; the answer is the final display. *)
Theorem standard_mode_verdict (state : TaskState) (g : GameState) :
  hangman_game_state (store state) = Some g →
  default false
    (gm_allow_word_guesses
       (default empty_game_metadata (hangman_metadata (store state)))) = false →
  ∃ sc, game_scorer state = Return sc ∧ answer sc = current_state g ∧
    (value sc = CORRECT ↔ game_over g = true ∧ won g = true) ∧
    (reachable g →
       (value sc = CORRECT ↔
        game_over g = true ∧ ∀ c, c ∈ chars (word g) → c ∈ guessed_letters g)).
Proof.
  intros Hg Hallow. destruct (standard_mode_value state g Hg Hallow)
    as (sc & Hsc & Hans & Hval).
  exists sc. split; [done|]. split; [done|]. rewrite Hval. split.
  - rewrite <- andb_true_iff. by destruct (game_over g && won g).
  - intros Hr. rewrite <- all_guessed_spec, <- andb_true_iff.
    rewrite (won_invariant_eq g Hr).
    by destruct (game_over g), (all_guessed g).
Qed.

(** X22.  Once the game is over the score is settled by the game alone: the
    final submission and the word-guess mode no longer matter. *)
Theorem finished_game_score_ignores_submission (state : TaskState)
    (g : GameState) :
  hangman_game_state (store state) = Some g → game_over g = true →
  let md := default empty_game_metadata (hangman_metadata (store state)) in
  game_scorer state =
    Return {| value := if won g then CORRECT else INCORRECT;
              answer := current_state g;
              explanation :=
                game_ended_explanation g
                  (default DEFAULT_LANGUAGE_value (gm_language md))
                  (default 3%Z (gm_difficulty md)) |} ∧
  ∀ completion, game_scorer (with_completion completion state) = game_scorer state.
Proof.
  intros Hg Hover. simpl. unfold game_scorer, with_completion. simpl.
  rewrite Hg, Hover. simpl. by rewrite andb_false_r.
Qed.

End SetupAndScoring.

(** * Properties of the task constructor *)

Section TaskProperties.
Context `{Externals} `{Datasets}.

(** The word entries [hangman] turns into samples. *)
Lemma hangman_eq (language : string) (difficulty : option Z) (max_guesses : Z)
    (shuffle allow_word_guesses : bool) (t : Task) :
  hangman language difficulty max_guesses shuffle allow_word_guesses = Return t →
  (lower language ∈ Language_values) ∧
  task_solver_allow_word_guesses t = allow_word_guesses ∧
  ∃ word_entries,
    word_entries =
      match difficulty with
      | Some d => get_words_by_difficulty (lower language) d
      | None => get_words_by_language (lower language)
      end ∧
    (difficulty = None ∨ ∃ d, difficulty = Some d ∧ (1 ≤ d ≤ 5)%Z) ∧
    task_dataset t =
      (if shuffle then dataset_shuffle else id)
        (make_sample (lower language) max_guesses allow_word_guesses <$> word_entries).
Proof.
  unfold hangman. case_bool_decide as Hlang; simpl; [|done].
  destruct difficulty as [d|].
  - destruct ((d <? 1)%Z || (d >? 5)%Z) eqn:Hd; [done|].
    apply orb_false_iff in Hd as [Hlo Hhi].
    intros [= <-]. split; [done|]. split; [done|].
    eexists. split; [reflexivity|]. split; [right; exists d; split; [done | lia]|].
    by destruct shuffle.
  - intros [= <-]. split; [done|]. split; [done|].
    eexists. split; [reflexivity|]. split; [by left|]. by destruct shuffle.
Qed.

(** X23.  [hangman] builds a task exactly when the lower-cased language is
    the value of a [Language] member and the difficulty, if given, lies in
    1..5.  An unknown language is reported first, with the supported values
    in the message; a bad difficulty is reported next. *)
Theorem hangman_validates_language_then_difficulty (language : string)
    (difficulty : option Z) (max_guesses : Z) (shuffle allow_word_guesses : bool) :
  ((∃ t, hangman language difficulty max_guesses shuffle allow_word_guesses = Return t)
   ↔ lower language ∈ Language_values ∧
     ∀ d, difficulty = Some d → (1 ≤ d ≤ 5)%Z) ∧
  (lower language ∉ Language_values →
     hangman language difficulty max_guesses shuffle allow_word_guesses =
       Raise (ValueError ("Language '" +:+ language
                +:+ "' not supported. Supported languages: "
                +:+ String.concat ", " Language_values))) ∧
  (lower language ∈ Language_values →
   ∀ d, difficulty = Some d → ¬ (1 ≤ d ≤ 5)%Z →
     hangman language difficulty max_guesses shuffle allow_word_guesses =
       Raise (ValueError "Difficulty must be between 1 and 5")).
Proof.
  split; [|split].
  - split.
    + intros [t Ht]. apply hangman_eq in Ht as (Hlang & _ & _ & _ & Hd & _).
      split; [done|]. intros d ->. destruct Hd as [? | (d' & [= <-] & ?)]; done.
    + intros [Hlang Hd]. unfold hangman.
      rewrite bool_decide_eq_true_2 by done. simpl.
      destruct difficulty as [d|]; [|by eexists].
      specialize (Hd d eq_refl).
      replace ((d <? 1)%Z || (d >? 5)%Z) with false by lia. by eexists.
  - intros Hlang. unfold hangman. by rewrite bool_decide_eq_false_2.
  - intros Hlang d -> Hd. unfold hangman.
    rewrite bool_decide_eq_true_2 by done. simpl.
    replace ((d <? 1)%Z || (d >? 5)%Z) with true by lia. done.
Qed.

(** X24.  Without shuffling the dataset has one sample per word entry, in
    the order of the word list; each sample has the word as its only target
    and carries the word, the entry's difficulty, the budget, the language
    value and the word-guess flag in its metadata. *)
Theorem hangman_samples_follow_word_list (language : string)
    (difficulty : option Z) (max_guesses : Z) (allow_word_guesses : bool) (t : Task) :
  hangman language difficulty max_guesses false allow_word_guesses = Return t →
  ∃ word_entries,
    word_entries =
      match difficulty with
      | Some d => get_words_by_difficulty (lower language) d
      | None => get_words_by_language (lower language)
      end ∧
    length (task_dataset t) = length word_entries ∧
    ∀ i entry, word_entries !! i = Some entry →
      ∃ sample, task_dataset t !! i = Some sample ∧
        sample_target sample = [entry_word entry] ∧
        sample_metadata sample =
          {| md_word := Some (entry_word entry);
             md_max_guesses := Some max_guesses;
             md_language := Some (lower language);
             md_difficulty := Some (entry_difficulty entry);
             md_allow_word_guesses := Some allow_word_guesses |}.
Proof.
  intros Ht. apply hangman_eq in Ht as (_ & _ & entries & Hentries & _ & Hds).
  exists entries. split; [done|]. rewrite Hds. simpl. split.
  - by rewrite length_fmap.
  - intros i entry Hi. eexists. split.
    + rewrite list_lookup_fmap, Hi. reflexivity.
    + done.
Qed.

(** X25.  The task is consistent with its episodes: when the shuffle only
    reorders, every sample of the dataset with a non-empty word passes the
    initialiser, which starts the game on the lower-cased target with the
    task's budget and stores the same word-guess flag the solver was built
    with. *)
Theorem hangman_samples_initialise (language : string) (difficulty : option Z)
    (max_guesses : Z) (shuffle allow_word_guesses : bool) (t : Task)
    (sample : Sample) (st : Store) (completion : string) :
  (∀ l, dataset_shuffle l ≡ₚ l) →
  hangman language difficulty max_guesses shuffle allow_word_guesses = Return t →
  sample ∈ task_dataset t →
  ∃ w, sample_target sample = [w] ∧
    (w ≠ "" →
     store (game_initialiser (sample_state sample st completion)).1 =
       {| hangman_game_state := Some (start w max_guesses);
          hangman_metadata :=
            Some {| gm_language := Some (lower language);
                    gm_difficulty := md_difficulty (sample_metadata sample);
                    gm_allow_word_guesses :=
                      Some (task_solver_allow_word_guesses t) |} |}).
Proof.
  intros Hperm Ht Hin.
  apply hangman_eq in Ht as (_ & Hflag & entries & _ & _ & Hds).
  rewrite Hds in Hin.
  assert (Hin' : sample ∈
    make_sample (lower language) max_guesses allow_word_guesses <$> entries).
  { destruct shuffle; [by rewrite Hperm in Hin | done]. }
  apply list_elem_of_fmap in Hin' as (entry & -> & _).
  exists (entry_word entry). split; [done|]. intros Hne.
  rewrite (game_initialiser_eq
             (sample_state (make_sample (lower language) max_guesses
                              allow_word_guesses entry) st completion)
             (sample_metadata (make_sample (lower language) max_guesses
                                 allow_word_guesses entry))
             (entry_word entry) eq_refl eq_refl Hne).
  simpl. by rewrite Hflag.
Qed.

End TaskProperties.

(** * The further properties on concrete episodes (ASCII instance) *)

Lemma guessed_letters_distinct_and_valid_witness :
  NoDup (guessed_letters played_game) ∧
  Forall (λ x, String.length x = 1%nat ∧ isalpha x = true)
    (guessed_letters played_game).
Proof.
  exact (guessed_letters_distinct_and_valid played_game
           (reachable_guesses ["a"; "A"; "z"; "1"] _ (reachable_start "cat" 3))).
Defined.

Lemma won_iff_over_and_complete_witness :
  won won_game = true ↔
  game_over won_game = true ∧
  ∀ c, c ∈ chars (word won_game) → c ∈ guessed_letters won_game.
Proof.
  exact (won_iff_over_and_complete won_game
           (reachable_guesses ["a"; "t"; "c"] _ (reachable_start "cat" 3))).
Defined.

Lemma over_means_won_or_out_of_guesses_witness :
  won lost_game = true ∨ (remaining_guesses lost_game ≤ 0)%Z.
Proof.
  exact (proj1 (over_means_won_or_out_of_guesses lost_game
                  (reachable_guesses ["z"] _ (reachable_start "dog" 1))) eq_refl).
Defined.

Lemma guess_depends_on_lower_case_only_witness :
  guess "D" (start "dog" 2) = guess "d" (start "dog" 2).
Proof.
  exact (guess_depends_on_lower_case_only (start "dog" 2) "D" "d" eq_refl).
Defined.

Lemma positive_budget_bounds_witness :
  (0 ≤ remaining_guesses (guesses ["z"; "x"; "q"; "d"] (start "dog" 2)) ≤ 2)%Z ∧
  (game_over (guesses ["z"; "x"; "q"; "d"] (start "dog" 2)) = false →
     (0 < remaining_guesses (guesses ["z"; "x"; "q"; "d"] (start "dog" 2)))%Z) ∧
  (Z.of_nat (length (incorrect_guesses
               (guesses ["z"; "x"; "q"; "d"] (start "dog" 2)))) ≤ 2)%Z.
Proof.
  exact (positive_budget_bounds "dog" 2 ["z"; "x"; "q"; "d"] eq_refl).
Defined.

Lemma complete_game_display_is_word_witness : current_state won_game = "c a t".
Proof.
  apply (complete_game_display_is_word won_game).
  apply all_guessed_spec. reflexivity.
Defined.

Lemma tool_raises_only_without_game_or_on_bad_letter_witness :
  hangman_guess "d" empty_store =
    (mkStore None (Some empty_game_metadata),
     Raise (RuntimeError
       "No game in progress. The game must be started by the evaluation setup.")) ∧
  hangman_guess "dog" live_store =
    (mkStore (Some (start "dog" 2)) (Some empty_game_metadata),
     Raise (ValueError "Guess must be a single letter")).
Proof.
  split.
  - exact (proj1 (tool_raises_only_without_game_or_on_bad_letter "d" empty_store)
             eq_refl).
  - apply (proj1 (proj2
      (tool_raises_only_without_game_or_on_bad_letter "dog" live_store))
      (start "dog" 2)); [reflexivity | reflexivity |].
    intros [Hlen _]. discriminate Hlen.
Defined.

Lemma tool_response_is_snapshot_of_store_witness :
  ∃ g, hangman_game_state live_store = Some g ∧
       hangman_game_state (hangman_guess "z" live_store).1 = Some (guess "z" g).1 ∧
       hangman_metadata (hangman_guess "z" live_store).1 = Some empty_game_metadata ∧
       response (guess "z" (start "dog" 2)).1 empty_game_metadata =
         response (guess "z" g).1
           (default empty_game_metadata
              (hangman_metadata (hangman_guess "z" live_store).1)).
Proof.
  exact (tool_response_is_snapshot_of_store "z" live_store
           (hangman_guess "z" live_store).1
           (response (guess "z" (start "dog" 2)).1 empty_game_metadata) eq_refl).
Defined.

Lemma tool_calls_follow_engine_witness :
  hangman_game_state (tool_calls ["z"; "dog"; "d"] live_store) =
    Some (guesses ["z"; "dog"; "d"] (start "dog" 2)) ∧
  default empty_game_metadata
    (hangman_metadata (tool_calls ["z"; "dog"; "d"] live_store)) =
    empty_game_metadata ∧
  (["z"; "dog"; "d"] ≠ [] →
     hangman_metadata (tool_calls ["z"; "dog"; "d"] live_store) =
       Some empty_game_metadata).
Proof.
  exact (tool_calls_follow_engine ["z"; "dog"; "d"] live_store (start "dog" 2) eq_refl).
Defined.

Lemma tool_response_adds_up_witness :
  (resp_remaining_guesses
     (response (guesses ["z"; "d"] (start "dog" 2)) empty_game_metadata)
   + Z.of_nat (length (resp_incorrect_guesses
       (response (guesses ["z"; "d"] (start "dog" 2)) empty_game_metadata))) = 2)%Z ∧
  (resp_won (response (guesses ["z"; "d"] (start "dog" 2)) empty_game_metadata) = true →
   resp_game_over
     (response (guesses ["z"; "d"] (start "dog" 2)) empty_game_metadata) = true).
Proof.
  exact (tool_response_adds_up "dog" 2 ["z"] "d" live_store
           (hangman_guess "d" (tool_calls ["z"] live_store)).1
           (response (guesses ["z"; "d"] (start "dog" 2)) empty_game_metadata)
           eq_refl eq_refl).
Defined.

Lemma example_word_not_empty : "Dog" ≠ "".
Proof. discriminate. Defined.

Lemma initialiser_resets_store_witness :
  store (game_initialiser example_state).1 =
    {| hangman_game_state := Some (start "Dog" 10);
       hangman_metadata :=
         Some {| gm_language := Some "english";
                 gm_difficulty := Some 3%Z;
                 gm_allow_word_guesses := Some true |} |}.
Proof.
  exact (initialiser_resets_store example_state example_metadata "Dog"
           eq_refl eq_refl example_word_not_empty).
Defined.

Lemma prompt_mask_is_initial_display_witness :
  ∃ game_state,
    hangman_game_state (store (game_initialiser example_state).1) = Some game_state ∧
    user_prompt_text (game_initialiser example_state).1 =
      "Let's play hangman in " +:+ "english"
      +:+ "! You have " +:+ str_int (remaining_guesses game_state) +:+ " guesses."
      +:+ newline +:+ "The word is " +:+ current_state game_state +:+ "." +:+ newline.
Proof.
  exact (prompt_mask_is_initial_display example_state example_metadata "Dog"
           eq_refl eq_refl example_word_not_empty eq_refl).
Defined.

Lemma tool_works_after_initialisation_witness :
  ∃ st' r,
    hangman_guess "Z" (store (game_initialiser example_state).1) = (st', Return r) ∧
    resp_language r = "english" ∧
    resp_remaining_guesses r = (10 - 1)%Z.
Proof.
  exact (tool_works_after_initialisation example_state example_metadata "Dog" "Z"
           eq_refl eq_refl example_word_not_empty (conj eq_refl eq_refl)).
Defined.

Lemma score_straight_after_initialisation_witness :
  ∃ sc, game_scorer (game_initialiser example_state).1 = Return sc ∧
    (value sc = CORRECT ↔ Some true = Some true ∧ "dog" = "dog").
Proof.
  exact (score_straight_after_initialisation example_state example_metadata "Dog"
           eq_refl eq_refl example_word_not_empty).
Defined.

Lemma scorer_raises_iff_no_game_witness :
  game_scorer (mkTaskState None empty_store "" "cat") =
    Raise (RuntimeError "No game state found in store").
Proof.
  exact (proj1 (scorer_raises_iff_no_game (mkTaskState None empty_store "" "cat"))
           eq_refl).
Defined.

Lemma standard_mode_verdict_witness :
  ∃ sc, game_scorer finished_state = Return sc ∧
    answer sc = current_state lost_game ∧
    (value sc = CORRECT ↔ game_over lost_game = true ∧ won lost_game = true) ∧
    (reachable lost_game →
       (value sc = CORRECT ↔
        game_over lost_game = true ∧
        ∀ c, c ∈ chars (word lost_game) → c ∈ guessed_letters lost_game)).
Proof. exact (standard_mode_verdict finished_state lost_game eq_refl eq_refl). Defined.

Lemma finished_game_score_ignores_submission_witness :
  game_scorer (with_completion "dog" finished_state) = game_scorer finished_state.
Proof.
  exact (proj2 (finished_game_score_ignores_submission finished_state lost_game
                  eq_refl eq_refl) "dog").
Defined.

Lemma english_supported : lower "English" ∈ Language_values.
Proof. apply list_elem_of_here. Defined.

Lemma hangman_validates_language_then_difficulty_witness :
  hangman "English" (Some 7%Z) 6 false true =
    Raise (ValueError "Difficulty must be between 1 and 5").
Proof.
  apply (proj2 (proj2
    (hangman_validates_language_then_difficulty "English" (Some 7%Z) 6 false true))
    english_supported 7%Z eq_refl).
  lia.
Defined.

Lemma hangman_samples_follow_word_list_witness :
  ∃ word_entries,
    word_entries = get_words_by_difficulty (lower "English") 4 ∧
    length (task_dataset
      (mkTask [make_sample "english" 6 true (mkWordEntry "Rhythm" 4)] true))
      = length word_entries ∧
    ∀ i entry, word_entries !! i = Some entry →
      ∃ sample,
        task_dataset
          (mkTask [make_sample "english" 6 true (mkWordEntry "Rhythm" 4)] true)
          !! i = Some sample ∧
        sample_target sample = [entry_word entry] ∧
        sample_metadata sample =
          {| md_word := Some (entry_word entry);
             md_max_guesses := Some 6%Z;
             md_language := Some (lower "English");
             md_difficulty := Some (entry_difficulty entry);
             md_allow_word_guesses := Some true |}.
Proof.
  exact (hangman_samples_follow_word_list "English" (Some 4%Z) 6 true
           (mkTask [make_sample "english" 6 true (mkWordEntry "Rhythm" 4)] true)
           eq_refl).
Defined.

Lemma hangman_samples_initialise_witness :
  ∃ w, sample_target (make_sample "english" 6 true (mkWordEntry "cat" 1)) = [w] ∧
    (w ≠ "" →
     store (game_initialiser
              (sample_state (make_sample "english" 6 true (mkWordEntry "cat" 1))
                 empty_store "")).1 =
       {| hangman_game_state := Some (start w 6);
          hangman_metadata :=
            Some {| gm_language := Some (lower "English");
                    gm_difficulty := Some 1%Z;
                    gm_allow_word_guesses := Some true |} |}).
Proof.
  apply (hangman_samples_initialise "English" None 6 true true
           (mkTask (reverse (make_sample "english" 6 true <$> example_entries "english"))
                   true)
           (make_sample "english" 6 true (mkWordEntry "cat" 1)) empty_store "").
  - intros l. apply reverse_Permutation.
  - reflexivity.
  - apply list_elem_of_further, list_elem_of_here.
Defined.
